(** * CronJob image-sync controller: a shallow embedding of
      [controllers/deployment_controller.go] and the properties of its
      reconcile algorithm.

    The Kubernetes objects are records holding the fields the reconciler
    reads or writes; everything else a container or a CronJob carries is
    kept in an uninterpreted remainder, so that frame properties say
    something.  The API client, the event recorder and the Prometheus
    counters are modelled by an in-memory cluster plus a chronological
    trace of the effects the reconciler performed.  Failures of client
    calls are chosen by an oracle that sees the whole current state and
    the argument of the call, so a statement proved for every oracle holds
    whatever the API server answers.

    Modelling choices:
    - a successful [Update] stores the object it was given in place of the
      stored object of the same namespace and name, and hands it back as it
      was; a successful [Delete] or [DeleteAllOf] removes the selected
      objects at once;
    - a list or delete-collection call selects the objects of the
      namespace it names, and those of every namespace when it names the
      empty one; Deployments are namespaced, so [Get] with an empty
      namespace finds nothing;
    - logging and tracing are left out: they touch nothing the properties
      speak about. *)

From Stdlib Require Import String List Bool Arith Lia Permutation.
From stdpp Require Import gmap strings list fin_maps.
Import ListNotations.

Open Scope string_scope.
Open Scope list_scope.

Section Controller.

(** The fields of [corev1.Container] and of [batchv1.CronJob] that the
    controller never mentions. *)
Context {ContainerRest CronJobRest : Type}.

(** ** Objects *)

Record Container := mkContainer {
  cName  : string;
  cImage : string;
  cRest  : ContainerRest
}.

(** [appsv1.Deployment]; [dContainers] is [Spec.Template.Spec.Containers]. *)
Record Deployment := mkDeployment {
  dNamespace  : string;
  dName       : string;
  dContainers : list Container
}.

(** [batchv1.CronJob]; [cjContainers] is
    [Spec.JobTemplate.Spec.Template.Spec.Containers]. *)
Record CronJob := mkCronJob {
  cjNamespace   : string;
  cjName        : string;
  cjUID         : string;
  cjLabels      : gmap string string;
  cjAnnotations : gmap string string;
  cjContainers  : list Container;
  cjRest        : CronJobRest
}.

(** [metav1.OwnerReference], all six fields. *)
Record OwnerReference := mkOwnerReference {
  orAPIVersion         : string;
  orKind               : string;
  orName               : string;
  orUID                : string;
  orController         : option bool;
  orBlockOwnerDeletion : option bool
}.

Record Job := mkJob {
  jNamespace       : string;
  jName            : string;
  jOwnerReferences : list OwnerReference
}.

Record Pod := mkPod {
  pNamespace : string;
  pName      : string;
  pLabels    : gmap string string
}.

Record NamespacedName := mkNamespacedName {
  nnNamespace : string;
  nnName      : string
}.

(** ** Image synchronisation (the inner loop of [Reconcile]) *)

Definition setImage (c : Container) (img : string) : Container :=
  {| cName := cName c; cImage := img; cRest := cRest c |}.

(** [imageByName[c.Name] = c.Image] for every container, in order: a later
    container overwrites an earlier one of the same name. *)
Definition imageByName (d : Deployment) : gmap string string :=
  fold_left (fun m c => <[cName c := cImage c]> m) (dContainers d) ∅.

(** One iteration of [for i, c := range ...Containers]: [cs] is the slice
    as mutated so far, [c] its element at index [i]. *)
Definition syncContainer (d : Deployment) (byName : gmap string string)
    (acc : list Container * bool) (i : nat) : list Container * bool :=
  let '(cs, updated) := acc in
  match cs !! i with
  | None => acc
  | Some c =>
      match byName !! cName c with
      | Some img =>
          if negb (String.eqb (cImage c) img)
          then (<[i := setImage c img]> cs, true)
          else acc
      | None =>
          match dContainers d with
          | first :: _ =>
              let fallback := cImage first in
              if negb (String.eqb (cImage c) fallback)
              then (<[i := setImage c fallback]> cs, true)
              else acc
          | [] => acc
          end
      end
  end.

Definition setContainers (cj : CronJob) (cs : list Container) : CronJob :=
  {| cjNamespace := cjNamespace cj; cjName := cjName cj; cjUID := cjUID cj;
     cjLabels := cjLabels cj; cjAnnotations := cjAnnotations cj;
     cjContainers := cs; cjRest := cjRest cj |}.

(** The whole inner loop: the CronJob with its containers as left by the
    loop, and the final value of [updated]. *)
Definition syncImages (d : Deployment) (byName : gmap string string)
    (cj : CronJob) : CronJob * bool :=
  let '(cs, updated) :=
    fold_left (syncContainer d byName)
              (seq 0 (length (cjContainers cj))) (cjContainers cj, false) in
  (setContainers cj cs, updated).

(** ** Matcher ([findCronJobsForDeployment], [hasSharedImage]) *)

Definition matchLabel (d : Deployment) (cj : CronJob) : bool :=
  match cjLabels cj !! "managed-by-deployment" with
  | Some val => String.eqb val (dName d)
  | None => false
  end.

Definition matchAnnotation (d : Deployment) (cj : CronJob) : bool :=
  match cjAnnotations cj !! "controller.example.com/managed-by-deployment" with
  | Some ann => String.eqb ann (dNamespace d +:+ "/" +:+ dName d)
  | None => false
  end.

Definition depImages (d : Deployment) : gset string :=
  fold_left (fun s c => {[cImage c]} ∪ s) (dContainers d) ∅.

Definition hasSharedImage (cj : CronJob) (d : Deployment) : bool :=
  existsb (fun c => bool_decide (cImage c ∈ depImages d)) (cjContainers cj).

(** The body of [for _, cj := range list.Items]: three tests in the order of
    the source, each one appending and moving on to the next item. *)
Definition appendIfMatched (d : Deployment) (out : list CronJob)
    (cj : CronJob) : list CronJob :=
  if matchLabel d cj then out ++ [cj]
  else if matchAnnotation d cj then out ++ [cj]
  else if hasSharedImage cj d then out ++ [cj]
  else out.

Definition matchedCronJobs (d : Deployment) (items : list CronJob)
    : list CronJob :=
  fold_left (appendIfMatched d) items [].

(** The same loop with the tests taken from a list and tried in the order
    of that list; used to compare evaluation orders. *)
Definition appendIfAny (rules : list (CronJob → bool)) (out : list CronJob)
    (cj : CronJob) : list CronJob :=
  if existsb (fun rule => rule cj) rules then out ++ [cj] else out.

Definition matchedCronJobsWith (rules : list (CronJob → bool))
    (items : list CronJob) : list CronJob :=
  fold_left (appendIfAny rules) items [].

Definition matchRules (d : Deployment) : list (CronJob → bool) :=
  [matchLabel d; matchAnnotation d; fun cj => hasSharedImage cj d].

(** ** Ownership ([isOwnedByCronJob]) *)

Definition ownerMatches (cj : CronJob) (owner : OwnerReference) : bool :=
  String.eqb (orKind owner) "CronJob"
  && String.eqb (orName owner) (cjName cj)
  && String.eqb (orUID owner) (cjUID cj).

Definition isOwnedByCronJob (job : Job) (cj : CronJob) : bool :=
  existsb (ownerMatches cj) (jOwnerReferences job).

(** ** Errors, events, counters and effects *)

Inductive StatusReason := ReasonNotFound | ReasonConflict | ReasonOther.

Record Error := mkError {
  errReason  : StatusReason;
  errMessage : string
}.

Definition notFound : Error := mkError ReasonNotFound "not found".

(** [client.IgnoreNotFound]. *)
Definition IgnoreNotFound (err : Error) : option Error :=
  match errReason err with
  | ReasonNotFound => None
  | _ => Some err
  end.

Inductive EventType := EventTypeNormal | EventTypeWarning.

Record ObjectRef := mkObjectRef {
  refKind      : string;
  refNamespace : string;
  refName      : string
}.

Record Event := mkEvent {
  evObject  : ObjectRef;
  evType    : EventType;
  evReason  : string;
  evMessage : string
}.

(** The four Prometheus counter vectors of the package. *)
Inductive Counter := syncsTotal | cronjobsUpdated | jobsDeleted | syncErrors.

(** What the reconciler does to the outside world: the client calls that
    write (with their outcome), counter increments and recorded events. *)
Inductive Effect :=
| CallUpdate (cj : CronJob) (res : option Error)
| CallDelete (job : Job) (res : option Error)
| CallDeleteAllOfPods (ns jobName : string) (res : option Error)
| CounterInc (c : Counter) (ns name : string)
| RecordEvent (ev : Event).

Record Cluster := mkCluster {
  deployments : list Deployment;
  cronjobs    : list CronJob;
  jobs        : list Job;
  pods        : list Pod
}.

(** [trace] is chronological: the most recent effect is last. *)
Record State := mkState {
  cluster : Cluster;
  trace   : list Effect
}.

(** The failures of the client calls, decided from the current state and
    the argument of the call. *)
Record Faults := mkFaults {
  failGet          : State → NamespacedName → option Error;
  failListCronJobs : State → string → option Error;
  failUpdate       : State → CronJob → option Error;
  failListJobs     : State → string → option Error;
  failDelete       : State → Job → option Error;
  failDeleteAllOf  : State → string → string → option Error
}.

Definition noFaults : Faults :=
  mkFaults (fun _ _ => None) (fun _ _ => None) (fun _ _ => None)
           (fun _ _ => None) (fun _ _ => None) (fun _ _ _ => None).

(** ** A state monad for the reconciler *)

Definition M (A : Type) : Type := State → A * State.

Definition ret {A} (a : A) : M A := fun st => (a, st).

Definition bind {A B} (m : M A) (k : A → M B) : M B :=
  fun st => let '(a, st') := m st in k a st'.

Definition emit (e : Effect) : M unit :=
  fun st => (tt, mkState (cluster st) (trace st ++ [e])).

Notation "x <- c ;; k" := (bind c (fun x => k))
  (at level 100, c at next level, right associativity).

(** ** The client ([client.Client]) over the in-memory cluster *)

Definition setCronJobs (c : Cluster) (cjs : list CronJob) : Cluster :=
  mkCluster (deployments c) cjs (jobs c) (pods c).

Definition setJobs (c : Cluster) (js : list Job) : Cluster :=
  mkCluster (deployments c) (cronjobs c) js (pods c).

Definition setPods (c : Cluster) (ps : list Pod) : Cluster :=
  mkCluster (deployments c) (cronjobs c) (jobs c) ps.

(** The namespace selection of a list or delete-collection call: an empty
    namespace in the options selects the objects of every namespace. *)
Definition inNamespace (ns objNamespace : string) : bool :=
  if String.eqb ns "" then true else String.eqb objNamespace ns.

(** Deployments are namespaced, stored under their namespace and name: a
    key with an empty namespace names none of them. *)
Definition isDeployment (key : NamespacedName) (d : Deployment) : bool :=
  negb (String.eqb (nnNamespace key) "")
  && String.eqb (dNamespace d) (nnNamespace key)
  && String.eqb (dName d) (nnName key).

Definition sameCronJob (a b : CronJob) : bool :=
  String.eqb (cjNamespace a) (cjNamespace b)
  && String.eqb (cjName a) (cjName b).

Definition sameJob (a b : Job) : bool :=
  String.eqb (jNamespace a) (jNamespace b)
  && String.eqb (jName a) (jName b).

Definition podSelected (ns jobName : string) (p : Pod) : bool :=
  inNamespace ns (pNamespace p)
  && match pLabels p !! "job-name" with
     | Some v => String.eqb v jobName
     | None => false
     end.

(** [r.Get]: an absent object is reported as NotFound. *)
Definition Get (fs : Faults) (key : NamespacedName) : M (Error + Deployment) :=
  fun st =>
    match failGet fs st key with
    | Some err => (inl err, st)
    | None =>
        match List.find (isDeployment key) (deployments (cluster st)) with
        | Some d => (inr d, st)
        | None => (inl notFound, st)
        end
    end.

(** [r.List] of CronJobs with [ListOptions{Namespace: ns}]; an empty [ns]
    lists the CronJobs of all namespaces. *)
Definition ListCronJobs (fs : Faults) (ns : string)
    : M (Error + list CronJob) :=
  fun st =>
    match failListCronJobs fs st ns with
    | Some err => (inl err, st)
    | None =>
        (inr (List.filter (fun cj => inNamespace ns (cjNamespace cj))
                          (cronjobs (cluster st))), st)
    end.

(** [r.Update]: on success the stored object of the same namespace and name
    is replaced by the one given. *)
Definition Update (fs : Faults) (cj : CronJob) : M (option Error) :=
  fun st =>
    match failUpdate fs st cj with
    | Some err =>
        (Some err, mkState (cluster st) (trace st ++ [CallUpdate cj (Some err)]))
    | None =>
        (None,
         mkState (setCronJobs (cluster st)
                    (map (fun old => if sameCronJob old cj then cj else old)
                         (cronjobs (cluster st))))
                 (trace st ++ [CallUpdate cj None]))
    end.

(** [r.List] of Jobs with [client.InNamespace(ns)]; an empty [ns] lists
    the Jobs of all namespaces. *)
Definition ListJobs (fs : Faults) (ns : string) : M (Error + list Job) :=
  fun st =>
    match failListJobs fs st ns with
    | Some err => (inl err, st)
    | None =>
        (inr (List.filter (fun j => inNamespace ns (jNamespace j))
                          (jobs (cluster st))), st)
    end.

(** [r.Delete] of a Job. *)
Definition Delete (fs : Faults) (job : Job) : M (option Error) :=
  fun st =>
    match failDelete fs st job with
    | Some err =>
        (Some err, mkState (cluster st) (trace st ++ [CallDelete job (Some err)]))
    | None =>
        (None,
         mkState (setJobs (cluster st)
                    (List.filter (fun j => negb (sameJob j job))
                                 (jobs (cluster st))))
                 (trace st ++ [CallDelete job None]))
    end.

(** [r.DeleteAllOf(&corev1.Pod{}, InNamespace(ns),
    MatchingLabels{"job-name": jobName})]. *)
Definition DeleteAllOfPods (fs : Faults) (ns jobName : string)
    : M (option Error) :=
  fun st =>
    match failDeleteAllOf fs st ns jobName with
    | Some err =>
        (Some err,
         mkState (cluster st)
                 (trace st ++ [CallDeleteAllOfPods ns jobName (Some err)]))
    | None =>
        (None,
         mkState (setPods (cluster st)
                    (List.filter (fun p => negb (podSelected ns jobName p))
                                 (pods (cluster st))))
                 (trace st ++ [CallDeleteAllOfPods ns jobName None]))
    end.

Definition cronJobRef (cj : CronJob) : ObjectRef :=
  mkObjectRef "CronJob" (cjNamespace cj) (cjName cj).

Definition deploymentRef (d : Deployment) : ObjectRef :=
  mkObjectRef "Deployment" (dNamespace d) (dName d).

(** ** [deleteJobsForCronJob] *)

Definition jobDeletedEvent (cj : CronJob) (jobName : string) : Event :=
  mkEvent (cronJobRef cj) EventTypeNormal "JobDeleted"
    ("Deleted Job " +:+ jobName +:+ " and its Pods for CronJob " +:+ cjName cj
     +:+ " to allow new runs with updated image").

(** [for _, job := range jobList.Items]. *)
Fixpoint deleteJobsLoop (fs : Faults) (cj : CronJob) (items : list Job)
    : M (option Error) :=
  match items with
  | [] => ret None
  | job :: rest =>
      if negb (isOwnedByCronJob job cj) then deleteJobsLoop fs cj rest
      else
        let jobName := jName job in
        err <- Delete fs job ;;
        match err with
        | Some e => ret (Some e)
        | None =>
            err <- DeleteAllOfPods fs (cjNamespace cj) jobName ;;
            match err with
            | Some e => ret (Some e)
            | None =>
                _ <- emit (CounterInc jobsDeleted (cjNamespace cj) (cjName cj)) ;;
                _ <- emit (RecordEvent (jobDeletedEvent cj jobName)) ;;
                deleteJobsLoop fs cj rest
            end
        end
  end.

Definition deleteJobsForCronJob (fs : Faults) (cj : CronJob)
    : M (option Error) :=
  r <- ListJobs fs (cjNamespace cj) ;;
  match r with
  | inl err => ret (Some err)
  | inr items => deleteJobsLoop fs cj items
  end.

(** ** [findCronJobsForDeployment] *)

Definition findCronJobsForDeployment (fs : Faults) (d : Deployment)
    : M (Error + list CronJob) :=
  r <- ListCronJobs fs (dNamespace d) ;;
  match r with
  | inl err => ret (inl err)
  | inr items => ret (inr (matchedCronJobs d items))
  end.

(** ** [Reconcile] *)

Definition updateFailedEvent (d : Deployment) (cj : CronJob) (err : Error)
    : Event :=
  mkEvent (deploymentRef d) EventTypeWarning "UpdateFailed"
    ("failed to update CronJob " +:+ cjName cj +:+ ": " +:+ errMessage err).

Definition cronJobUpdatedEvent (d : Deployment) (cj : CronJob) : Event :=
  mkEvent (cronJobRef cj) EventTypeNormal "CronJobUpdated"
    ("Updated job template images from Deployment "
     +:+ dNamespace d +:+ "/" +:+ dName d).

Definition deleteJobsFailedEvent (cj : CronJob) (err : Error) : Event :=
  mkEvent (cronJobRef cj) EventTypeWarning "DeleteJobsFailed"
    ("failed to delete Jobs for CronJob " +:+ cjName cj +:+ ": "
     +:+ errMessage err).

Definition jobsRecreatedEvent (cj : CronJob) : Event :=
  mkEvent (cronJobRef cj) EventTypeNormal "JobsRecreated"
    "Deleted existing Jobs so future runs use the updated image".

(** The body of [for _, cj := range cronjobs]; [Some err] is the early
    [return ctrl.Result{}, err]. *)
Definition reconcileCronJob (fs : Faults) (deploy : Deployment)
    (byName : gmap string string) (cj0 : CronJob) : M (option Error) :=
  let '(cj, updated) := syncImages deploy byName cj0 in
  if updated then
    err <- Update fs cj ;;
    match err with
    | Some e =>
        _ <- emit (CounterInc syncErrors (dNamespace deploy) (dName deploy)) ;;
        _ <- emit (RecordEvent (updateFailedEvent deploy cj e)) ;;
        ret (Some e)
    | None =>
        _ <- emit (CounterInc cronjobsUpdated (cjNamespace cj) (cjName cj)) ;;
        _ <- emit (RecordEvent (cronJobUpdatedEvent deploy cj)) ;;
        err <- deleteJobsForCronJob fs cj ;;
        match err with
        | Some e =>
            _ <- emit (CounterInc syncErrors (dNamespace deploy) (dName deploy)) ;;
            _ <- emit (RecordEvent (deleteJobsFailedEvent cj e)) ;;
            ret (Some e)
        | None =>
            _ <- emit (RecordEvent (jobsRecreatedEvent cj)) ;;
            ret None
        end
    end
  else ret None.

Fixpoint reconcileCronJobs (fs : Faults) (deploy : Deployment)
    (byName : gmap string string) (cronjobs : list CronJob)
    : M (option Error) :=
  match cronjobs with
  | [] => ret None
  | cj :: rest =>
      err <- reconcileCronJob fs deploy byName cj ;;
      match err with
      | Some e => ret (Some e)
      | None => reconcileCronJobs fs deploy byName rest
      end
  end.

Definition Reconcile (fs : Faults) (req : NamespacedName) : M (option Error) :=
  r <- Get fs req ;;
  match r with
  | inl err => ret (IgnoreNotFound err)
  | inr deploy =>
      _ <- emit (CounterInc syncsTotal (dNamespace deploy) (dName deploy)) ;;
      r <- findCronJobsForDeployment fs deploy ;;
      match r with
      | inl err => ret (Some err)
      | inr cronjobs =>
          reconcileCronJobs fs deploy (imageByName deploy) cronjobs
      end
  end.

(** * Vocabulary of the properties *)

(** ** The image-sync loop, container by container *)

(** The image the loop wants container [c] to have, if any. *)
Definition targetImage (d : Deployment) (byName : gmap string string)
    (c : Container) : option string :=
  match byName !! cName c with
  | Some img => Some img
  | None =>
      match dContainers d with
      | first :: _ => Some (cImage first)
      | [] => None
      end
  end.

Definition changed (d : Deployment) (byName : gmap string string)
    (c : Container) : bool :=
  match targetImage d byName c with
  | Some img => negb (String.eqb (cImage c) img)
  | None => false
  end.

Definition syncOne (d : Deployment) (byName : gmap string string)
    (c : Container) : Container :=
  match targetImage d byName c with
  | Some img => if negb (String.eqb (cImage c) img) then setImage c img else c
  | None => c
  end.

Definition hasName (n : string) (c : Container) : bool := String.eqb (cName c) n.

(** A CronJob with the image of every container blanked: what is left is
    everything the image sync must not touch. *)
Definition eraseImages (cj : CronJob) : CronJob :=
  setContainers cj (map (fun c => setImage c "") (cjContainers cj)).

(** ** The matcher and the ownership test *)

Definition matches (d : Deployment) (cj : CronJob) : bool :=
  matchLabel d cj || matchAnnotation d cj || hasSharedImage cj d.

Definition ownedBy (cj : CronJob) (job : Job) : bool := isOwnedByCronJob job cj.

Definition mapOwners (f : OwnerReference → OwnerReference) (job : Job) : Job :=
  mkJob (jNamespace job) (jName job) (map f (jOwnerReferences job)).

(** ** Reading the trace *)

Definition isWrite (e : Effect) : bool :=
  match e with
  | CallUpdate _ _ | CallDelete _ _ | CallDeleteAllOfPods _ _ _ => true
  | _ => false
  end.

(** The client calls that write, in order. *)
Definition writes (t : list Effect) : list Effect := List.filter isWrite t.

(** The Jobs on which [Delete] was called, whatever the outcome. *)
Definition deleteCalls (t : list Effect) : list Job :=
  flat_map (fun e => match e with CallDelete j _ => [j] | _ => [] end) t.

(** The Jobs whose [Delete] call succeeded. *)
Definition deletedJobs (t : list Effect) : list Job :=
  flat_map (fun e => match e with CallDelete j None => [j] | _ => [] end) t.

(** The recorded events, in order. *)
Definition eventsOf (t : list Effect) : list Event :=
  flat_map (fun e => match e with RecordEvent ev => [ev] | _ => [] end) t.

Definition isWarning (ev : Event) : bool :=
  match evType ev with EventTypeWarning => true | EventTypeNormal => false end.

Definition warnings (t : list Effect) : list Event :=
  List.filter isWarning (eventsOf t).

Definition counterEqb (a b : Counter) : bool :=
  match a, b with
  | syncsTotal, syncsTotal | cronjobsUpdated, cronjobsUpdated
  | jobsDeleted, jobsDeleted | syncErrors, syncErrors => true
  | _, _ => false
  end.

Definition isInc (c : Counter) (ns name : string) (e : Effect) : bool :=
  match e with
  | CounterInc c' ns' name' =>
      counterEqb c' c && String.eqb ns' ns && String.eqb name' name
  | _ => false
  end.

(** The number of [Inc] calls on counter [c] with label values [ns], [name]:
    the amount by which that counter grew along the trace. *)
Definition counterIncs (c : Counter) (ns name : string) (t : list Effect) : nat :=
  length (List.filter (isInc c ns name) t).

(** The effects performed between two states of one run. *)
Definition effectsSince (st st' : State) : list Effect :=
  drop (length (trace st)) (trace st').

(** ** Runs of [deleteJobsForCronJob] *)

(** The effects of one Job deleted together with its Pods. *)
Definition deletionEffects (cj : CronJob) (job : Job) : list Effect :=
  [ CallDelete job None;
    CallDeleteAllOfPods (cjNamespace cj) (jName job) None;
    CounterInc jobsDeleted (cjNamespace cj) (cjName cj);
    RecordEvent (jobDeletedEvent cj (jName job)) ].

(** [DeleteRun cj items r t]: the loop over [items] can return [r] after
    performing exactly the effects [t]. *)
Inductive DeleteRun (cj : CronJob)
    : list Job → option Error → list Effect → Prop :=
| DeleteRun_done :
    DeleteRun cj [] None []
| DeleteRun_skip job rest r t :
    isOwnedByCronJob job cj = false →
    DeleteRun cj rest r t →
    DeleteRun cj (job :: rest) r t
| DeleteRun_delete_failed job rest e :
    isOwnedByCronJob job cj = true →
    DeleteRun cj (job :: rest) (Some e) [CallDelete job (Some e)]
| DeleteRun_pods_failed job rest e :
    isOwnedByCronJob job cj = true →
    DeleteRun cj (job :: rest) (Some e)
      [CallDelete job None;
       CallDeleteAllOfPods (cjNamespace cj) (jName job) (Some e)]
| DeleteRun_deleted job rest r t :
    isOwnedByCronJob job cj = true →
    DeleteRun cj rest r t →
    DeleteRun cj (job :: rest) r (deletionEffects cj job ++ t).

Definition listedJobs (cj : CronJob) (st : State) : list Job :=
  List.filter (fun j => inNamespace (cjNamespace cj) (jNamespace j))
              (jobs (cluster st)).

(** [JobsRun cj st r t]: [deleteJobsForCronJob] started in [st] can return
    [r] after exactly the effects [t]; a failed listing has no effect. *)
Inductive JobsRun (cj : CronJob) (st : State)
    : option Error → list Effect → Prop :=
| JobsRun_list_failed e : JobsRun cj st (Some e) []
| JobsRun_listed r t :
    DeleteRun cj (listedJobs cj st) r t → JobsRun cj st r t.

(** A Job is kept by the deletions of [gone] when it has the namespace and
    name of none of them. *)
Definition survives (gone : list Job) (j : Job) : bool :=
  forallb (fun g => negb (sameJob j g)) gone.

(** ** Runs of the loop body and of the loop of [Reconcile] *)

Definition updateEffects (d : Deployment) (cj : CronJob) : list Effect :=
  [ CallUpdate cj None;
    CounterInc cronjobsUpdated (cjNamespace cj) (cjName cj);
    RecordEvent (cronJobUpdatedEvent d cj) ].

Definition updateFailedEffects (d : Deployment) (cj : CronJob) (e : Error)
    : list Effect :=
  [ CallUpdate cj (Some e);
    CounterInc syncErrors (dNamespace d) (dName d);
    RecordEvent (updateFailedEvent d cj e) ].

Definition deleteJobsFailedEffects (d : Deployment) (cj : CronJob) (e : Error)
    : list Effect :=
  [ CounterInc syncErrors (dNamespace d) (dName d);
    RecordEvent (deleteJobsFailedEvent cj e) ].

(** The stored CronJobs after a successful [Update] of [cj]. *)
Definition replaceCronJob (cj : CronJob) (cjs : list CronJob) : list CronJob :=
  map (fun old => if sameCronJob old cj then cj else old) cjs.

(** [BodyRun d byName cj0 r t]: one iteration of the loop over the matched
    CronJobs, on [cj0], can return [r] after exactly the effects [t]. *)
Inductive BodyRun (d : Deployment) (byName : gmap string string)
    (cj0 : CronJob) : option Error → list Effect → Prop :=
| BodyRun_up_to_date :
    snd (syncImages d byName cj0) = false →
    BodyRun d byName cj0 None []
| BodyRun_update_failed e :
    snd (syncImages d byName cj0) = true →
    BodyRun d byName cj0 (Some e)
      (updateFailedEffects d (fst (syncImages d byName cj0)) e)
| BodyRun_jobs_failed st e t :
    snd (syncImages d byName cj0) = true →
    JobsRun (fst (syncImages d byName cj0)) st (Some e) t →
    BodyRun d byName cj0 (Some e)
      (updateEffects d (fst (syncImages d byName cj0)) ++ t
       ++ deleteJobsFailedEffects d (fst (syncImages d byName cj0)) e)
| BodyRun_synced st t :
    snd (syncImages d byName cj0) = true →
    JobsRun (fst (syncImages d byName cj0)) st None t →
    BodyRun d byName cj0 None
      (updateEffects d (fst (syncImages d byName cj0)) ++ t
       ++ [RecordEvent (jobsRecreatedEvent (fst (syncImages d byName cj0)))]).

(** [PassRun d byName cjs r t]: the loop over the matched CronJobs [cjs]
    can return [r] after exactly the effects [t]. *)
Inductive PassRun (d : Deployment) (byName : gmap string string)
    : list CronJob → option Error → list Effect → Prop :=
| PassRun_done :
    PassRun d byName [] None []
| PassRun_abort cj rest e t :
    BodyRun d byName cj (Some e) t →
    PassRun d byName (cj :: rest) (Some e) t
| PassRun_next cj rest r t1 t2 :
    BodyRun d byName cj None t1 →
    PassRun d byName rest r t2 →
    PassRun d byName (cj :: rest) r (t1 ++ t2).

(** The state in which the matched CronJobs are looked up and the loop is
    entered: [syncsTotal] has been incremented. *)
Definition started (d : Deployment) (st : State) : State :=
  mkState (cluster st)
          (trace st ++ [CounterInc syncsTotal (dNamespace d) (dName d)]).

(** ** Deletions come after the update of their owner *)

(** [justified seen t]: reading [t] from the left, every [Delete] call is on
    a Job owned by a CronJob whose [Update] succeeded earlier in [t], or by
    one of [seen]. *)
Fixpoint justified (seen : list CronJob) (t : list Effect) : Prop :=
  match t with
  | [] => True
  | CallUpdate cj None :: t' => justified (cj :: seen) t'
  | CallDelete job _ :: t' =>
      (∃ cj, In cj seen ∧ isOwnedByCronJob job cj = true) ∧ justified seen t'
  | _ :: t' => justified seen t'
  end.

Definition updatedIn (t : list Effect) : list CronJob :=
  flat_map (fun e => match e with CallUpdate cj None => [cj] | _ => [] end) t.

(** ** Statements about whole runs *)

(** C8 as stated: along a run of [deleteJobsForCronJob], the
    [jobsDeleted] counter of the CronJob grows by one for each Job whose
    [Delete] succeeded, and one [JobDeleted] event is recorded for each. *)
Definition counted_per_deleted_job (fs : Faults) (cj : CronJob) (st : State)
    : Prop :=
  let t := effectsSince st (snd (deleteJobsForCronJob fs cj st)) in
  counterIncs jobsDeleted (cjNamespace cj) (cjName cj) t
  = length (deletedJobs t)
  ∧ eventsOf t = map (fun job => jobDeletedEvent cj (jName job)) (deletedJobs t).

(** [settled d e]: if the matcher selects the stored CronJob [e] for [d],
    the image sync has nothing to change on it. *)
Definition settled (d : Deployment) (e : CronJob) : Prop :=
  inNamespace (dNamespace d) (cjNamespace e) = true → matches d e = true →
  snd (syncImages d (imageByName d) e) = false.

(** ** More ways to read the trace *)

Definition isCounter (k : Counter) (e : Effect) : bool :=
  match e with
  | CounterInc k' _ _ => counterEqb k' k
  | _ => false
  end.

(** The number of [Inc] calls on counter [k], over all label values. *)
Definition counterTotal (k : Counter) (t : list Effect) : nat :=
  length (List.filter (isCounter k) t).

(** The namespace and [job-name] label value of every [DeleteAllOf] call on
    Pods, whatever the outcome. *)
Definition podCalls (t : list Effect) : list (string * string) :=
  flat_map (fun e => match e with
                     | CallDeleteAllOfPods ns jobName _ => [(ns, jobName)]
                     | _ => []
                     end) t.

(** The same for the calls that succeeded. *)
Definition clearedPods (t : list Effect) : list (string * string) :=
  flat_map (fun e => match e with
                     | CallDeleteAllOfPods ns jobName None => [(ns, jobName)]
                     | _ => []
                     end) t.

(** A Pod is kept by the collection deletions [cleared] when none of them
    selects it. *)
Definition podKept (cleared : list (string * string)) (p : Pod) : bool :=
  forallb (fun sel => negb (podSelected (fst sel) (snd sel) p)) cleared.

Definition hasKey (ns name : string) (cj : CronJob) : bool :=
  String.eqb (cjNamespace cj) ns && String.eqb (cjName cj) name.

(** What an error contributes to an error count. *)
Definition errorCount (r : option Error) : nat :=
  match r with Some _ => 1 | None => 0 end.

(** [storeAfter st t st']: the Jobs and Pods stored in [st'] are those of
    [st] that the successful deletions among the effects [t] keep. *)
Definition storeAfter (st : State) (t : list Effect) (st' : State) : Prop :=
  jobs (cluster st')
  = List.filter (survives (deletedJobs t)) (jobs (cluster st))
  ∧ pods (cluster st')
    = List.filter (podKept (clearedPods t)) (pods (cluster st)).

(** ** States reached inside the loop body *)

Definition addEffects (st : State) (t : list Effect) : State :=
  mkState (cluster st) (trace st ++ t).

(** The state right after a successful [Update] of [cj], its counter and
    its event. *)
Definition updatedState (d : Deployment) (cj : CronJob) (st : State) : State :=
  mkState (setCronJobs (cluster st) (replaceCronJob cj (cronjobs (cluster st))))
          (trace st ++ updateEffects d cj).

Definition jobKey (job : Job) : string * string := (jNamespace job, jName job).

End Controller.

(** * A concrete cluster

    The "update" scenario: Deployment [web] runs [nginx:1.22]; CronJob
    [web-cron] is labelled for it and still runs [nginx:1.21], next to a
    container the Deployment does not have.  One Job is owned by the
    CronJob (through a reference that is not the controlling one, next to
    a foreign reference), another one carries the same owner name with the
    UID of an earlier incarnation.  The uninterpreted remainders are
    strings. *)

Definition nginx122 : Container := mkContainer "nginx" "nginx:1.22" "port 80".
Definition nginx121 : Container := mkContainer "nginx" "nginx:1.21" "curl localhost".
Definition sidecar : Container := mkContainer "sidecar" "busybox:1.36" "sleep 1".

Definition web : Deployment := mkDeployment "default" "web" [nginx122].

Definition webCron : CronJob :=
  mkCronJob "default" "web-cron" "uid-2"
    {["managed-by-deployment" := "web"]} ∅ [nginx121; sidecar] "*/5 * * * *".

(** A CronJob of another team that only happens to use the same image. *)
Definition otherCron : CronJob :=
  mkCronJob "default" "report" "uid-7" ∅ ∅ [nginx122] "0 3 * * *".

Definition ownedJob : Job :=
  mkJob "default" "web-cron-28"
    [ mkOwnerReference "v1" "ConfigMap" "web-cron" "uid-9" None None;
      mkOwnerReference "batch/v1" "CronJob" "web-cron" "uid-2"
                       (Some false) None ].

Definition staleJob : Job :=
  mkJob "default" "web-cron-27"
    [ mkOwnerReference "batch/v1" "CronJob" "web-cron" "uid-1"
                       (Some true) (Some true) ].

Definition ownedPod : Pod :=
  mkPod "default" "web-cron-28-x7k" {["job-name" := "web-cron-28"]}.

Definition cluster0 : Cluster :=
  mkCluster [web] [webCron] [staleJob; ownedJob] [ownedPod].

Definition state0 : State := mkState cluster0 [].

Definition webKey : NamespacedName := mkNamespacedName "default" "web".

Definition conflict : Error :=
  mkError ReasonConflict "the object has been modified".

(** Every [Update] is refused with a Conflict. *)
Definition updateConflicts : @Faults string string :=
  mkFaults (fun _ _ => None) (fun _ _ => None) (fun _ _ => Some conflict)
           (fun _ _ => None) (fun _ _ => None) (fun _ _ _ => None).

Definition forbidden : Error := mkError ReasonOther "pods is forbidden".

(** Jobs can be deleted, their Pods cannot. *)
Definition podsForbidden : @Faults string string :=
  mkFaults (fun _ _ => None) (fun _ _ => None) (fun _ _ => None)
           (fun _ _ => None) (fun _ _ => None) (fun _ _ _ => Some forbidden).

Definition webCronSynced : CronJob :=
  fst (syncImages web (imageByName web) webCron).

Definition rulesReordered : list (@CronJob string string → bool) :=
  [fun cj => hasSharedImage cj web; matchLabel web; matchAnnotation web].

(** A Deployment that declares the name [app] twice. *)
Definition twice : Deployment :=
  mkDeployment "default" "twice"
    [ mkContainer "app" "app:1" "first";
      mkContainer "db" "postgres:16" "store";
      mkContainer "app" "app:2" "second" ].

(** A CronJob whose job template has no container. *)
Definition hollowCron : @CronJob string string :=
  mkCronJob "default" "hollow" "uid-5" ∅ ∅ [] "@daily".

Definition goneKey : NamespacedName := mkNamespacedName "default" "gone".

(** A second Job of the CronJob, and the cluster that also holds it. *)
Definition ownedJob2 : Job :=
  mkJob "default" "web-cron-29"
    [ mkOwnerReference "batch/v1" "CronJob" "web-cron" "uid-2"
                       (Some true) (Some true) ].

Definition cluster1 : Cluster :=
  mkCluster [web] [webCron] [staleJob; ownedJob; ownedJob2] [ownedPod].

Definition state1 : State := mkState cluster1 [].

(** The Pods of the second Job cannot be deleted. *)
Definition secondPodsForbidden : @Faults string string :=
  mkFaults (fun _ _ => None) (fun _ _ => None) (fun _ _ => None)
           (fun _ _ => None) (fun _ _ => None)
           (fun _ _ jobName =>
              if String.eqb jobName "web-cron-29" then Some forbidden else None).

(** [Get] is refused. *)
Definition getForbidden : @Faults string string :=
  mkFaults (fun _ _ => Some forbidden) (fun _ _ => None) (fun _ _ => None)
           (fun _ _ => None) (fun _ _ => None) (fun _ _ _ => None).

(** [Get] answers NotFound. *)
Definition getNotFound : @Faults string string :=
  mkFaults (fun _ _ => Some notFound) (fun _ _ => None) (fun _ _ => None)
           (fun _ _ => None) (fun _ _ => None) (fun _ _ _ => None).

(** A CronJob with an empty namespace, as a caller could pass one. *)
Definition anywhereCron : CronJob :=
  mkCronJob "" "web-cron" "uid-2" ∅ ∅ [nginx121] "@hourly".

(** * Properties *)

Section Properties.

Context {ContainerRest CronJobRest : Type}.

Local Abbreviation Container := (@Container ContainerRest).
Local Abbreviation Deployment := (@Deployment ContainerRest).
Local Abbreviation CronJob := (@CronJob ContainerRest CronJobRest).
Local Abbreviation Effect := (@Effect ContainerRest CronJobRest).
Local Abbreviation State := (@State ContainerRest CronJobRest).
Local Abbreviation Faults := (@Faults ContainerRest CronJobRest).

Implicit Types (c : Container) (cs : list Container).
Implicit Types (d deploy : Deployment).
Implicit Types (cj old : CronJob) (cjs : list CronJob).
Implicit Types (t : list Effect).
Implicit Types (st : State) (fs : Faults).

(** ** Namespace selection *)

Lemma inNamespace_true (ns objNamespace : string) :
  inNamespace ns objNamespace = true ↔ ns = "" ∨ objNamespace = ns.
Proof.
  unfold inNamespace. destruct (String.eqb_spec ns "") as [->|Hne].
  - split; [now left | reflexivity].
  - rewrite String.eqb_eq. split; [now right|]. now intros [H|H].
Qed.

Lemma inNamespace_eq (ns objNamespace : string) :
  objNamespace = ns → inNamespace ns objNamespace = true.
Proof. intros H. apply inNamespace_true. now right. Qed.

Lemma inNamespace_named (ns objNamespace : string) :
  ns ≠ "" → inNamespace ns objNamespace = true → objNamespace = ns.
Proof. intros Hne H. apply inNamespace_true in H as [H|H]; [now destruct Hne | assumption]. Qed.

(** ** The image-sync loop, container by container *)

Lemma syncContainer_at d byName pre c suf updated :
  syncContainer d byName (pre ++ c :: suf, updated) (length pre)
  = (pre ++ syncOne d byName c :: suf, updated || changed d byName c).
Proof.
  unfold syncContainer, syncOne, changed, targetImage.
  rewrite list_lookup_middle by reflexivity.
  assert (Hins : ∀ x, <[length pre := x]> (pre ++ c :: suf) = pre ++ x :: suf).
  { intros x. replace (length pre) with (length pre + 0) by lia.
    now rewrite insert_app_r. }
  destruct (byName !! cName c) as [img|].
  - destruct (String.eqb (cImage c) img); simpl.
    + now rewrite orb_false_r.
    + now rewrite Hins, orb_true_r.
  - destruct (dContainers d) as [|first ?].
    + now rewrite orb_false_r.
    + simpl. destruct (String.eqb (cImage c) (cImage first)); simpl.
      * now rewrite orb_false_r.
      * now rewrite Hins, orb_true_r.
Qed.

Lemma syncLoop_spec d byName suf : ∀ pre updated,
  fold_left (syncContainer d byName) (seq (length pre) (length suf))
            (pre ++ suf, updated)
  = (pre ++ map (syncOne d byName) suf,
     updated || existsb (changed d byName) suf).
Proof.
  induction suf as [|c suf IH]; intros pre updated;
    cbn [length seq fold_left map existsb].
  - now rewrite orb_false_r, app_nil_r.
  - rewrite syncContainer_at.
    specialize (IH (pre ++ [syncOne d byName c]) (updated || changed d byName c)).
    rewrite length_app in IH. simpl in IH.
    replace (length pre + 1) with (S (length pre)) in IH by lia.
    rewrite <- !app_assoc in IH. simpl in IH.
    rewrite IH. now rewrite orb_assoc.
Qed.

Lemma syncImages_spec d byName cj :
  syncImages d byName cj
  = (setContainers cj (map (syncOne d byName) (cjContainers cj)),
     existsb (changed d byName) (cjContainers cj)).
Proof.
  unfold syncImages.
  pose proof (syncLoop_spec d byName (cjContainers cj) [] false) as H.
  simpl in H. now rewrite H.
Qed.

Lemma setImage_same (c : Container) : setImage c (cImage c) = c.
Proof. now destruct c. Qed.

Lemma setContainers_same (cj : CronJob) : setContainers cj (cjContainers cj) = cj.
Proof. now destruct cj. Qed.

Lemma syncOne_setImage d byName c img :
  targetImage d byName c = Some img → syncOne d byName c = setImage c img.
Proof.
  unfold syncOne. intros ->.
  destruct (String.eqb_spec (cImage c) img) as [<-|]; simpl; [|reflexivity].
  now rewrite setImage_same.
Qed.

(** ** The name-to-image map of the Deployment *)

Lemma find_snoc {A} (f : A → bool) l x :
  List.find f (l ++ [x])
  = match List.find f l with
    | Some y => Some y
    | None => if f x then Some x else None
    end.
Proof.
  induction l as [|a l IH]; simpl; [reflexivity|].
  now destruct (f a).
Qed.

Lemma fold_insert_lookup (cs : list Container) : ∀ (m : gmap string string) n,
  fold_left (fun m c => <[cName c := cImage c]> m) cs m !! n
  = match List.find (hasName n) (rev cs) with
    | Some c => Some (cImage c)
    | None => m !! n
    end.
Proof.
  induction cs as [|c cs IH]; intros m n; simpl; [reflexivity|].
  rewrite IH, find_snoc.
  destruct (List.find (hasName n) (rev cs)); [reflexivity|].
  unfold hasName. destruct (String.eqb_spec (cName c) n) as [->|Hne].
  - now rewrite lookup_insert_eq.
  - now rewrite lookup_insert_ne.
Qed.

(** The map holds, for each name, the image of the last container declared
    with that name. *)
Lemma imageByName_lookup d n :
  imageByName d !! n
  = cImage <$> List.find (hasName n) (rev (dContainers d)).
Proof.
  unfold imageByName. rewrite fold_insert_lookup.
  now destruct (List.find (hasName n) (rev (dContainers d))).
Qed.

Lemma imageByName_None d n :
  imageByName d !! n = None ↔ ∀ p, In p (dContainers d) → cName p ≠ n.
Proof.
  rewrite imageByName_lookup. split.
  - intros H p Hin Hn.
    destruct (List.find (hasName n) (rev (dContainers d))) eqn:E; [discriminate|].
    apply in_rev in Hin. pose proof (find_none _ _ E p Hin) as Hf.
    unfold hasName in Hf. subst n. now rewrite String.eqb_refl in Hf.
  - intros H.
    destruct (List.find (hasName n) (rev (dContainers d))) as [p|] eqn:E;
      [|reflexivity].
    apply find_some in E as [Hin Hn]. apply in_rev in Hin.
    unfold hasName in Hn. apply String.eqb_eq in Hn. now destruct (H p Hin).
Qed.

Lemma imageByName_Some d n img :
  imageByName d !! n = Some img →
  ∃ p, In p (dContainers d) ∧ cName p = n ∧ cImage p = img.
Proof.
  rewrite imageByName_lookup.
  destruct (List.find (hasName n) (rev (dContainers d))) as [p|] eqn:E;
    [|discriminate].
  intros [= <-]. apply find_some in E as [Hin Hn].
  exists p. split; [now apply in_rev|]. split; [|reflexivity].
  now apply String.eqb_eq.
Qed.

Lemma fold_insert_NoDup (cs : list Container) : ∀ (m : gmap string string) p,
  NoDup (map cName cs) → In p cs →
  fold_left (fun m c => <[cName c := cImage c]> m) cs m !! cName p
  = Some (cImage p).
Proof.
  induction cs as [|c cs IH]; intros m p Hnd Hin; [destruct Hin|].
  simpl in *. apply NoDup_cons in Hnd as [Hc Hnd].
  destruct Hin as [->|Hin]; [|now apply IH].
  rewrite fold_insert_lookup.
  destruct (List.find (hasName (cName p)) (rev cs)) as [q|] eqn:E.
  - apply find_some in E as [Hq Hn]. apply in_rev in Hq.
    apply String.eqb_eq in Hn. destruct Hc. rewrite <- Hn.
    apply list_elem_of_In. now apply in_map.
  - apply lookup_insert_eq.
Qed.

Lemma lookup_map {A B} (f : A → B) (l : list A) i :
  map f l !! i = f <$> l !! i.
Proof.
  revert i. induction l as [|a l IH]; intros [|i]; simpl; try reflexivity.
  apply IH.
Qed.

Lemma syncImages_lookup d byName cj i c :
  cjContainers cj !! i = Some c →
  cjContainers (fst (syncImages d byName cj)) !! i = Some (syncOne d byName c).
Proof.
  intros H. rewrite syncImages_spec. simpl. now rewrite lookup_map, H.
Qed.

Lemma syncImages_updated d byName cj i c :
  cjContainers cj !! i = Some c → changed d byName c = true →
  snd (syncImages d byName cj) = true.
Proof.
  intros H Hc. rewrite syncImages_spec. simpl.
  apply existsb_exists. exists c. split; [|assumption].
  apply list_elem_of_In, list_elem_of_lookup. now exists i.
Qed.

(** ** C1 *)

(** C1 (name-based sync completeness).  A container [c] of the CronJob's
    job template whose name is the name of some container of the
    Deployment is, after the image-sync loop, a container [c'] at the same
    index whose image is the Deployment's image for that name - the entry
    of [imageByName], which is the image of the last Deployment container
    declared with that name, and the image of every Deployment container of
    that name when the names are distinct - and whose name and remaining
    fields are those of [c]. *)
Theorem name_based_sync_complete (d : Deployment) (cj : CronJob) (i : nat)
    (c : Container) :
  cjContainers cj !! i = Some c →
  (∃ p, In p (dContainers d) ∧ cName p = cName c) →
  ∃ img c',
    imageByName d !! cName c = Some img
    ∧ cjContainers (fst (syncImages d (imageByName d) cj)) !! i = Some c'
    ∧ cImage c' = img
    ∧ cName c' = cName c
    ∧ cRest c' = cRest c
    ∧ cImage <$> List.find (hasName (cName c)) (rev (dContainers d)) = Some img
    ∧ (NoDup (map cName (dContainers d)) →
       ∀ p, In p (dContainers d) → cName p = cName c → cImage p = img).
Proof.
  intros Hc [p [Hp Hn]].
  destruct (imageByName d !! cName c) as [img|] eqn:E.
  2:{ now destruct (proj1 (imageByName_None _ _) E p Hp). }
  exists img, (setImage c img). split; [reflexivity|]. split.
  { rewrite (syncImages_lookup _ _ _ _ _ Hc). f_equal.
    apply syncOne_setImage. unfold targetImage. now rewrite E. }
  split; [reflexivity|]. split; [reflexivity|]. split; [reflexivity|]. split.
  - now rewrite <- imageByName_lookup.
  - intros Hnd q Hq Hqn.
    pose proof (fold_insert_NoDup (dContainers d) ∅ q Hnd Hq) as Hl.
    fold (imageByName d) in Hl. rewrite Hqn, E in Hl. now injection Hl.
Qed.

(** ** C2 *)

(** C2 (positional fallback).  A container [c] of the job template whose
    name is the name of no Deployment container is left untouched when the
    Deployment has no container.  Otherwise the container at the same
    index after the loop has the image of the Deployment's first container
    and the name and remaining fields of [c]; [updated] is set when that
    image differs from the one [c] had, and [c] is left as it was when it
    does not. *)
Theorem positional_fallback (d : Deployment) (cj : CronJob) (i : nat)
    (c : Container) :
  cjContainers cj !! i = Some c →
  (∀ p, In p (dContainers d) → cName p ≠ cName c) →
  match dContainers d with
  | [] =>
      cjContainers (fst (syncImages d (imageByName d) cj)) !! i = Some c
  | first :: _ =>
      ∃ c',
        cjContainers (fst (syncImages d (imageByName d) cj)) !! i = Some c'
        ∧ cImage c' = cImage first
        ∧ cName c' = cName c
        ∧ cRest c' = cRest c
        ∧ (cImage c ≠ cImage first →
           snd (syncImages d (imageByName d) cj) = true)
        ∧ (cImage c = cImage first → c' = c)
  end.
Proof.
  intros Hc Hno. apply (proj2 (imageByName_None _ _)) in Hno.
  rewrite (syncImages_lookup _ _ _ _ _ Hc).
  destruct (dContainers d) as [|first rest] eqn:Ed.
  - unfold syncOne, targetImage. now rewrite Hno, Ed.
  - exists (setImage c (cImage first)). split.
    { f_equal. apply syncOne_setImage. unfold targetImage. now rewrite Hno, Ed. }
    split; [reflexivity|]. split; [reflexivity|]. split; [reflexivity|]. split.
    + intros Hne. apply (syncImages_updated _ _ _ _ _ Hc).
      unfold changed, targetImage. rewrite Hno, Ed.
      now apply negb_true_iff, String.eqb_neq.
    + intros <-. apply setImage_same.
Qed.

(** ** The matcher *)

Lemma fold_append_filter {A} (f : A → bool) (items : list A) : ∀ out,
  fold_left (fun out x => if f x then out ++ [x] else out) items out
  = out ++ List.filter f items.
Proof.
  induction items as [|x items IH]; intros out; simpl.
  - now rewrite app_nil_r.
  - rewrite IH. destruct (f x); [|reflexivity].
    now rewrite <- app_assoc.
Qed.

Lemma appendIfMatched_matches d out cj :
  appendIfMatched d out cj = if matches d cj then out ++ [cj] else out.
Proof.
  unfold appendIfMatched, matches.
  destruct (matchLabel d cj), (matchAnnotation d cj), (hasSharedImage cj d);
    reflexivity.
Qed.

Lemma matchedCronJobs_filter d (items : list CronJob) :
  matchedCronJobs d items = List.filter (matches d) items.
Proof.
  unfold matchedCronJobs.
  change (List.filter (matches d) items) with ([] ++ List.filter (matches d) items).
  generalize (@nil CronJob). induction items as [|x items IH]; intros out; simpl.
  - now rewrite app_nil_r.
  - rewrite IH, appendIfMatched_matches. destruct (matches d x); [|reflexivity].
    now rewrite <- app_assoc.
Qed.

Lemma matchedCronJobsWith_filter rules (items : list CronJob) :
  matchedCronJobsWith rules items
  = List.filter (fun cj => existsb (fun rule => rule cj) rules) items.
Proof.
  unfold matchedCronJobsWith, appendIfAny.
  now rewrite (fold_append_filter
                 (fun cj => existsb (fun rule : CronJob → bool => rule cj) rules)).
Qed.

Lemma existsb_Permutation {A} (f : A → bool) l1 l2 :
  Permutation l1 l2 → existsb f l1 = existsb f l2.
Proof.
  intros HP. apply eq_true_iff_eq. rewrite !existsb_exists.
  split; intros [x [Hin Hx]]; exists x; split; try assumption.
  - now apply (Permutation_in _ HP).
  - now apply (Permutation_in _ (Permutation_sym HP)).
Qed.

Lemma filter_ext_all {A} (f g : A → bool) l :
  (∀ x, f x = g x) → List.filter f l = List.filter g l.
Proof.
  intros H. induction l as [|x l IH]; simpl; [reflexivity|].
  now rewrite H, IH.
Qed.

Lemma NoDup_filter_bool {A} (f : A → bool) l :
  NoDup l → NoDup (List.filter f l).
Proof.
  induction 1 as [|x l Hx Hnd IH]; simpl; [constructor|].
  destruct (f x); [|assumption].
  constructor; [|assumption].
  intros Hin. apply Hx. apply list_elem_of_In in Hin.
  apply filter_In in Hin as [Hin _]. now apply list_elem_of_In.
Qed.

(** ** C5 *)

(** C5 (match exclusivity).  For every Deployment and every candidate
    list, the matched list is the candidate list filtered by the
    disjunction of the three rules: a candidate is appended once or not at
    all, however many rules it satisfies, so a duplicate-free candidate
    list gives a duplicate-free result; and trying the three rules in any
    other order returns the same list. *)
Theorem match_exclusive (d : Deployment) (items : list CronJob) :
  matchedCronJobs d items = List.filter (matches d) items
  ∧ (NoDup items → NoDup (matchedCronJobs d items))
  ∧ (∀ rules, Permutation rules (matchRules d) →
       matchedCronJobsWith rules items = matchedCronJobs d items).
Proof.
  split; [apply matchedCronJobs_filter|]. split.
  - intros Hnd. rewrite matchedCronJobs_filter. now apply NoDup_filter_bool.
  - intros rules HP.
    rewrite matchedCronJobsWith_filter, matchedCronJobs_filter.
    apply filter_ext_all. intros cj.
    rewrite (existsb_Permutation (fun rule : CronJob → bool => rule cj) _ _ HP).
    unfold matchRules, matches. simpl. now rewrite orb_false_r, orb_assoc.
Qed.

(** ** Ownership *)

Lemma ownerMatches_true cj o :
  ownerMatches cj o = true
  ↔ orKind o = "CronJob" ∧ orName o = cjName cj ∧ orUID o = cjUID cj.
Proof.
  unfold ownerMatches. rewrite !andb_true_iff, !String.eqb_eq. tauto.
Qed.

Lemma isOwnedByCronJob_true job cj :
  isOwnedByCronJob job cj = true
  ↔ ∃ o, In o (jOwnerReferences job)
         ∧ orKind o = "CronJob" ∧ orName o = cjName cj ∧ orUID o = cjUID cj.
Proof.
  unfold isOwnedByCronJob. rewrite existsb_exists.
  split; intros [o [Hin Ho]]; exists o; split; try assumption;
    now apply ownerMatches_true.
Qed.

(** ** Reading the trace *)

Lemma writes_app t1 t2 : writes (t1 ++ t2) = writes t1 ++ writes t2.
Proof. apply List.filter_app. Qed.

Lemma deleteCalls_app t1 t2 :
  deleteCalls (t1 ++ t2) = deleteCalls t1 ++ deleteCalls t2.
Proof. apply flat_map_app. Qed.

Lemma deletedJobs_app t1 t2 :
  deletedJobs (t1 ++ t2) = deletedJobs t1 ++ deletedJobs t2.
Proof. apply flat_map_app. Qed.

Lemma eventsOf_app t1 t2 : eventsOf (t1 ++ t2) = eventsOf t1 ++ eventsOf t2.
Proof. apply flat_map_app. Qed.

Lemma warnings_app t1 t2 : warnings (t1 ++ t2) = warnings t1 ++ warnings t2.
Proof. unfold warnings. now rewrite eventsOf_app, List.filter_app. Qed.

Lemma counterIncs_app k ns name t1 t2 :
  counterIncs k ns name (t1 ++ t2)
  = counterIncs k ns name t1 + counterIncs k ns name t2.
Proof. unfold counterIncs. now rewrite List.filter_app, length_app. Qed.

Lemma counterIncs_cons_other k ns name e t :
  isInc k ns name e = false →
  counterIncs k ns name (e :: t) = counterIncs k ns name t.
Proof. unfold counterIncs. simpl. now intros ->. Qed.

Lemma counterIncs_cons_same k ns name t :
  counterIncs k ns name (CounterInc k ns name :: t)
  = S (counterIncs k ns name t).
Proof.
  unfold counterIncs. simpl. rewrite !String.eqb_refl.
  now destruct k.
Qed.

Lemma effectsSince_app st st' t :
  trace st' = trace st ++ t → effectsSince st st' = t.
Proof. unfold effectsSince. intros ->. apply drop_app_length. Qed.

(** ** Runs of [deleteJobsForCronJob] *)

Lemma deleteJobsLoop_run fs cj items : ∀ st r st',
  deleteJobsLoop fs cj items st = (r, st') →
  ∃ t, trace st' = trace st ++ t
       ∧ DeleteRun cj items r t
       ∧ cronjobs (cluster st') = cronjobs (cluster st)
       ∧ deployments (cluster st') = deployments (cluster st).
Proof.
  induction items as [|job rest IH]; intros st r st' H; cbn [deleteJobsLoop] in H.
  - injection H as <- <-. exists []. rewrite app_nil_r.
    repeat split. constructor.
  - destruct (isOwnedByCronJob job cj) eqn:Eo; cbn [negb] in H.
    2:{ destruct (IH _ _ _ H) as (t & Ht & Hr & Hc & Hd).
        exists t. repeat split; try assumption. now constructor. }
    unfold bind, Delete in H.
    destruct (failDelete fs st job) as [e|] eqn:Ed.
    { injection H as <- <-. exists [CallDelete job (Some e)].
      repeat split. now constructor. }
    unfold DeleteAllOfPods in H. cbn [cluster trace] in H.
    match type of H with
    | context [failDeleteAllOf fs ?s ?a ?b] =>
        destruct (failDeleteAllOf fs s a b) as [e|] eqn:Ep
    end.
    { injection H as <- <-.
      exists [CallDelete job None;
              CallDeleteAllOfPods (cjNamespace cj) (jName job) (Some e)].
      cbn [cluster trace]. rewrite <- app_assoc.
      repeat split. now constructor. }
    unfold emit in H. cbn [cluster trace] in H.
    destruct (IH _ _ _ H) as (t & Ht & Hr & Hc & Hd).
    exists (deletionEffects cj job ++ t).
    cbn [cluster trace cronjobs deployments setPods setJobs] in Ht, Hc, Hd.
    repeat split; try assumption.
    + rewrite Ht. unfold deletionEffects. now rewrite <- !app_assoc.
    + now constructor.
Qed.

Lemma deleteJobsForCronJob_run fs cj st r st' :
  deleteJobsForCronJob fs cj st = (r, st') →
  ∃ t, trace st' = trace st ++ t
       ∧ JobsRun cj st r t
       ∧ cronjobs (cluster st') = cronjobs (cluster st)
       ∧ deployments (cluster st') = deployments (cluster st).
Proof.
  unfold deleteJobsForCronJob, bind, ListJobs. intros H.
  destruct (failListJobs fs st (cjNamespace cj)) as [e|].
  - injection H as <- <-. exists []. rewrite app_nil_r.
    repeat split. constructor.
  - destruct (deleteJobsLoop_run _ _ _ _ _ _ H) as (t & Ht & Hr & Hc & Hd).
    exists t. repeat split; try assumption. now constructor.
Qed.

(** ** Runs of the loop body and of the loop of [Reconcile] *)

Lemma reconcileCronJob_up_to_date fs d byName cj0 st :
  snd (syncImages d byName cj0) = false →
  reconcileCronJob fs d byName cj0 st = (None, st).
Proof.
  unfold reconcileCronJob. destruct (syncImages d byName cj0) as [cj u].
  simpl. now intros ->.
Qed.

Lemma reconcileCronJob_update_failed fs d byName cj0 st e :
  snd (syncImages d byName cj0) = true →
  failUpdate fs st (fst (syncImages d byName cj0)) = Some e →
  reconcileCronJob fs d byName cj0 st
  = (Some e,
     mkState (cluster st)
       (trace st ++ updateFailedEffects d (fst (syncImages d byName cj0)) e)).
Proof.
  unfold reconcileCronJob. destruct (syncImages d byName cj0) as [cj u].
  simpl. intros -> Hf. unfold bind, Update, emit, ret. rewrite Hf.
  cbn [cluster trace]. unfold updateFailedEffects.
  now rewrite <- !app_assoc.
Qed.

Lemma reconcileCronJob_run fs d byName cj0 st r st' :
  reconcileCronJob fs d byName cj0 st = (r, st') →
  ∃ t, trace st' = trace st ++ t
       ∧ BodyRun d byName cj0 r t
       ∧ deployments (cluster st') = deployments (cluster st)
       ∧ cronjobs (cluster st')
         = if snd (syncImages d byName cj0) then
             match failUpdate fs st (fst (syncImages d byName cj0)) with
             | Some _ => cronjobs (cluster st)
             | None => replaceCronJob (fst (syncImages d byName cj0))
                                      (cronjobs (cluster st))
             end
           else cronjobs (cluster st).
Proof.
  intros H.
  destruct (snd (syncImages d byName cj0)) eqn:Eu.
  2:{ rewrite reconcileCronJob_up_to_date in H by assumption.
      injection H as <- <-. exists []. rewrite app_nil_r.
      repeat split. now constructor. }
  destruct (failUpdate fs st (fst (syncImages d byName cj0))) as [e|] eqn:Ef.
  { rewrite (reconcileCronJob_update_failed _ _ _ _ _ e) in H by assumption.
    injection H as <- <-. eexists. cbn [cluster trace].
    repeat split. now constructor. }
  unfold reconcileCronJob in H.
  destruct (syncImages d byName cj0) as [cj u] eqn:Es. simpl in Eu, Ef. subst u.
  cbn [fst snd]. unfold bind at 1, Update in H. rewrite Ef in H.
  unfold bind at 1 2, emit in H. cbn [cluster trace] in H.
  unfold bind at 1 in H.
  match type of H with
  | context [deleteJobsForCronJob fs cj ?s] =>
      destruct (deleteJobsForCronJob fs cj s) as [rj stj] eqn:Ej
  end.
  destruct (deleteJobsForCronJob_run _ _ _ _ _ Ej) as (t & Ht & Hr & Hc & Hd).
  cbn [cluster trace cronjobs deployments setCronJobs] in Ht, Hc, Hd.
  destruct rj as [e|].
  - unfold bind, emit, ret in H. injection H as <- <-. cbn [cluster trace].
    exists (updateEffects d cj ++ t ++ deleteJobsFailedEffects d cj e).
    repeat split.
    + rewrite Ht. unfold updateEffects, deleteJobsFailedEffects.
      now rewrite <- !app_assoc.
    + pose proof (BodyRun_jobs_failed d byName cj0) as HB.
      rewrite Es in HB. eapply HB; [reflexivity | exact Hr].
    + assumption.
    + assumption.
  - unfold bind, emit, ret in H. injection H as <- <-. cbn [cluster trace].
    exists (updateEffects d cj ++ t ++ [RecordEvent (jobsRecreatedEvent cj)]).
    repeat split.
    + rewrite Ht. unfold updateEffects. now rewrite <- !app_assoc.
    + pose proof (BodyRun_synced d byName cj0) as HB.
      rewrite Es in HB. eapply HB; [reflexivity | exact Hr].
    + assumption.
    + assumption.
Qed.

Lemma reconcileCronJobs_run fs d byName cjs : ∀ st r st',
  reconcileCronJobs fs d byName cjs st = (r, st') →
  ∃ t, trace st' = trace st ++ t
       ∧ PassRun d byName cjs r t
       ∧ deployments (cluster st') = deployments (cluster st).
Proof.
  induction cjs as [|cj rest IH]; intros st r st' H; cbn [reconcileCronJobs] in H.
  - injection H as <- <-. exists []. rewrite app_nil_r.
    repeat split. constructor.
  - unfold bind in H.
    destruct (reconcileCronJob fs d byName cj st) as [r1 st1] eqn:E1.
    destruct (reconcileCronJob_run _ _ _ _ _ _ _ E1) as (t1 & Ht1 & Hb & Hd1 & _).
    destruct r1 as [e|].
    + injection H as <- <-. exists t1. repeat split; try assumption.
      now constructor.
    + destruct (IH _ _ _ H) as (t2 & Ht2 & Hp & Hd2).
      exists (t1 ++ t2). repeat split.
      * now rewrite Ht2, Ht1, app_assoc.
      * now constructor.
      * now rewrite Hd2.
Qed.

(** The loop over [pre ++ post] runs the loop over [pre] and, unless that
    returned an error, the loop over [post] from the state reached. *)
Lemma reconcileCronJobs_app fs d byName pre post st :
  reconcileCronJobs fs d byName (pre ++ post) st
  = match reconcileCronJobs fs d byName pre st with
    | (Some e, st1) => (Some e, st1)
    | (None, st1) => reconcileCronJobs fs d byName post st1
    end.
Proof.
  revert st. induction pre as [|cj pre IH]; intros st; simpl; [reflexivity|].
  unfold bind. destruct (reconcileCronJob fs d byName cj st) as [[e|] st1].
  - reflexivity.
  - apply IH.
Qed.

(** ** Successful iterations raise no error counter and no warning *)

Lemma DeleteRun_quiet cj items r t ns name :
  DeleteRun cj items r t →
  counterIncs syncErrors ns name t = 0 ∧ warnings t = [].
Proof.
  induction 1; now split.
Qed.

Lemma JobsRun_quiet cj st r t ns name :
  JobsRun cj st r t →
  counterIncs syncErrors ns name t = 0 ∧ warnings t = [].
Proof.
  intros [e|r' t' H]; [now split|]. now apply (DeleteRun_quiet _ _ _ _ _ _ H).
Qed.

Lemma BodyRun_quiet d byName cj0 t ns name :
  BodyRun d byName cj0 None t →
  counterIncs syncErrors ns name t = 0 ∧ warnings t = [].
Proof.
  inversion 1 as [ | | |st t' Hu Hj]; subst; [now split|].
  destruct (JobsRun_quiet _ _ _ _ ns name Hj) as [H1 H2]. split.
  - rewrite !counterIncs_app, H1. reflexivity.
  - rewrite !warnings_app, H2. reflexivity.
Qed.

Lemma PassRun_quiet d byName cjs t ns name :
  PassRun d byName cjs None t →
  counterIncs syncErrors ns name t = 0 ∧ warnings t = [].
Proof.
  remember None as r eqn:Er. induction 1 as [ | |cj rest r t1 t2 Hb Hp IH];
    [now split | discriminate |].
  destruct (IH Er) as [H1 H2]. subst r.
  destruct (BodyRun_quiet _ _ _ _ ns name Hb) as [H3 H4]. split.
  - now rewrite counterIncs_app, H1, H3.
  - now rewrite warnings_app, H2, H4.
Qed.

(** ** C6 *)

Lemma Get_state fs req st : snd (Get fs req st) = st.
Proof.
  unfold Get. destruct (failGet fs st req); [reflexivity|].
  now destruct (List.find (isDeployment req) (deployments (cluster st))).
Qed.

Lemma findCronJobsForDeployment_state fs d st :
  snd (findCronJobsForDeployment fs d st) = st.
Proof.
  unfold findCronJobsForDeployment, bind, ListCronJobs.
  now destruct (failListCronJobs fs st (dNamespace d)).
Qed.

Lemma Reconcile_fetched fs req st d :
  fst (Get fs req st) = inr d →
  Reconcile fs req st
  = match fst (findCronJobsForDeployment fs d (started d st)) with
    | inl err => (Some err, started d st)
    | inr cjs => reconcileCronJobs fs d (imageByName d) cjs (started d st)
    end.
Proof.
  intros HG. unfold Reconcile, bind at 1.
  pose proof (Get_state fs req st) as HS.
  destruct (Get fs req st) as [g st1]. simpl in HG, HS. subst g st1.
  unfold bind at 1, emit. fold (started d st). unfold bind.
  pose proof (findCronJobsForDeployment_state fs d (started d st)) as HF.
  destruct (findCronJobsForDeployment fs d (started d st)) as [[err|cjs] st2];
    simpl in HF; subst st2; reflexivity.
Qed.

(** C6 (conflict abort).  Let the pass on Deployment [deploy] have matched
    [pre ++ cj :: post], let the loop have gone through [pre] without
    error, reaching [st1], let the image sync have changed [cj], and let
    [Update] of the synced CronJob fail with [e] (a Conflict or any other
    error).  Then [Reconcile] returns [e]; after the failed call it only
    increments [syncErrors] for the Deployment's namespace and name and
    records one warning on the Deployment, so that over the whole pass
    this counter grew by exactly one and exactly one warning event was
    recorded; no [Delete] call follows the failed update, the cluster is
    as it was before it, and [post] is not looked at. *)
Theorem conflict_abort (fs : Faults) (req : NamespacedName)
    (deploy : Deployment) (st0 st1 : State) (pre post : list CronJob)
    (cj : CronJob) (e : Error) :
  fst (Get fs req st0) = inr deploy →
  fst (findCronJobsForDeployment fs deploy (started deploy st0))
  = inr (pre ++ cj :: post) →
  reconcileCronJobs fs deploy (imageByName deploy) pre (started deploy st0)
  = (None, st1) →
  snd (syncImages deploy (imageByName deploy) cj) = true →
  failUpdate fs st1 (fst (syncImages deploy (imageByName deploy) cj)) = Some e →
  ∃ st',
    Reconcile fs req st0 = (Some e, st')
    ∧ cluster st' = cluster st1
    ∧ trace st'
      = trace st1
        ++ updateFailedEffects deploy
             (fst (syncImages deploy (imageByName deploy) cj)) e
    ∧ counterIncs syncErrors (dNamespace deploy) (dName deploy) (trace st')
      = S (counterIncs syncErrors (dNamespace deploy) (dName deploy) (trace st0))
    ∧ warnings (trace st')
      = warnings (trace st0)
        ++ [updateFailedEvent deploy
              (fst (syncImages deploy (imageByName deploy) cj)) e]
    ∧ deleteCalls (trace st') = deleteCalls (trace st1).
Proof.
  intros HG HF Hpre Hu Hfail.
  rewrite (Reconcile_fetched _ _ _ _ HG), HF.
  rewrite reconcileCronJobs_app, Hpre. cbn [reconcileCronJobs]. unfold bind.
  rewrite (reconcileCronJob_update_failed _ _ _ _ _ e Hu Hfail).
  eexists. split; [reflexivity|]. cbn [cluster trace].
  destruct (reconcileCronJobs_run _ _ _ _ _ _ _ Hpre) as (t & Ht & Hp & _).
  destruct (PassRun_quiet _ _ _ _ (dNamespace deploy) (dName deploy) Hp)
    as [Hq1 Hq2].
  repeat split.
  - rewrite Ht. cbn [started trace].
    rewrite !counterIncs_app, Hq1. unfold updateFailedEffects.
    rewrite (counterIncs_cons_other _ _ _ (CounterInc syncsTotal _ _)) by reflexivity.
    rewrite (counterIncs_cons_other _ _ _ (CallUpdate _ _)) by reflexivity.
    rewrite counterIncs_cons_same.
    rewrite (counterIncs_cons_other _ _ _ (RecordEvent _)) by reflexivity.
    unfold counterIncs at 2 3. simpl. lia.
  - rewrite Ht. cbn [started trace]. rewrite !warnings_app, Hq2.
    change (warnings [CounterInc syncsTotal (dNamespace deploy) (dName deploy)])
      with (@nil Event).
    now rewrite !app_nil_r.
  - now rewrite deleteCalls_app, app_nil_r.
Qed.

(** ** Deletions come after the update of their owner *)

Lemma justified_mono t : ∀ seen seen',
  (∀ cj, In cj seen → In cj seen') → justified seen t → justified seen' t.
Proof.
  induction t as [|e t IH]; intros seen seen' Hs H; [exact I|].
  destruct e as [cj [err|]|job res| | |]; simpl in *;
    try (now apply (IH seen seen')).
  - apply (IH (cj :: seen)); [|assumption].
    intros x [->|Hx]; [now left | right; now apply Hs].
  - destruct H as [[cj [Hin Ho]] H]. split; [|now apply (IH seen seen')].
    exists cj. split; [now apply Hs | assumption].
Qed.

Lemma justified_app t1 : ∀ seen t2,
  justified seen t1 → justified (rev (updatedIn t1) ++ seen) t2 →
  justified seen (t1 ++ t2).
Proof.
  induction t1 as [|e t1 IH]; intros seen t2 H1 H2; [exact H2|].
  destruct e as [cj [err|]|job res| | |]; simpl in *;
    try (now apply IH).
  - apply IH; [assumption|]. now rewrite <- app_assoc in H2.
  - destruct H1 as [Hex H1]. split; [assumption | now apply IH].
Qed.

Lemma justified_split t : ∀ seen t1 job res t2,
  justified seen t → t = t1 ++ CallDelete job res :: t2 →
  ∃ cj, (In cj seen ∨ In (CallUpdate cj None) t1)
        ∧ isOwnedByCronJob job cj = true.
Proof.
  induction t as [|e t IH]; intros seen t1 job res t2 H Ht.
  - now destruct t1.
  - destruct t1 as [|e1 t1]; simpl in Ht; injection Ht as -> Ht.
    + simpl in H. destruct H as [[cj [Hin Ho]] _]. exists cj. now split; [left|].
    + assert (Hrest : ∀ seen', justified seen' t →
                ∃ cj, (In cj seen' ∨ In (CallUpdate cj None) t1)
                      ∧ isOwnedByCronJob job cj = true).
      { intros seen' H'. now apply (IH seen' t1 job res t2). }
      destruct e1 as [cj [err|]|job' res'| | |]; simpl in H;
        try (destruct (Hrest seen H) as [x [[Hx|Hx] Ho]]; exists x;
             (split; [|assumption]); [now left | right; now right]).
      * destruct (Hrest (cj :: seen) H) as [x [[[->|Hx]|Hx] Ho]]; exists x;
          (split; [|assumption]); [right; now left | now left | right; now right].
      * destruct H as [_ H].
        destruct (Hrest seen H) as [x [[Hx|Hx] Ho]]; exists x;
          (split; [|assumption]); [now left | right; now right].
Qed.

Lemma DeleteRun_justified cj items r t seen :
  DeleteRun cj items r t → In cj seen → justified seen t.
Proof.
  intros H Hin. induction H; simpl; try tauto; repeat split; eauto.
Qed.

Lemma JobsRun_justified cj st r t seen :
  JobsRun cj st r t → In cj seen → justified seen t.
Proof.
  intros [e|r' t' H] Hin; [exact I|]. now apply (DeleteRun_justified _ _ _ _ _ H).
Qed.

Lemma BodyRun_justified d byName cj0 r t seen :
  BodyRun d byName cj0 r t → justified seen t.
Proof.
  inversion 1 as [ | |st e t' Hu Hj|st t' Hu Hj]; subst; simpl; try exact I.
  - apply justified_app; [|exact I].
    apply (JobsRun_justified _ _ _ _ _ Hj). now left.
  - apply justified_app; [|exact I].
    apply (JobsRun_justified _ _ _ _ _ Hj). now left.
Qed.

Lemma PassRun_justified d byName cjs r t :
  PassRun d byName cjs r t → ∀ seen, justified seen t.
Proof.
  induction 1 as [ |cj rest e t Hb|cj rest r t1 t2 Hb Hp IH]; intros seen.
  - exact I.
  - now apply (BodyRun_justified _ _ _ _ _ _ Hb).
  - apply justified_app; [|apply IH].
    now apply (BodyRun_justified _ _ _ _ _ _ Hb).
Qed.

(** ** C9 *)

Lemma Reconcile_run fs req st r st' :
  Reconcile fs req st = (r, st') →
  (st' = st ∧ ∃ err, fst (Get fs req st) = inl err ∧ r = IgnoreNotFound err)
  ∨ ∃ d, fst (Get fs req st) = inr d
         ∧ ((∃ err, r = Some err ∧ st' = started d st
                    ∧ fst (findCronJobsForDeployment fs d (started d st)) = inl err)
            ∨ ∃ cjs, fst (findCronJobsForDeployment fs d (started d st)) = inr cjs
                     ∧ reconcileCronJobs fs d (imageByName d) cjs (started d st)
                       = (r, st')).
Proof.
  intros H. destruct (fst (Get fs req st)) as [err|d] eqn:EG.
  - left. unfold Reconcile, bind in H.
    pose proof (Get_state fs req st) as HS.
    destruct (Get fs req st) as [g st1]. simpl in EG, HS. subst g st1.
    injection H as <- <-. split; [reflexivity|]. now exists err.
  - right. exists d. split; [reflexivity|].
    rewrite (Reconcile_fetched _ _ _ _ EG) in H.
    destruct (fst (findCronJobsForDeployment fs d (started d st))) as [err|cjs].
    + left. injection H as <- <-. now exists err.
    + right. now exists cjs.
Qed.

(** C9 (invalidate only after persist).  In the effects [t] of any
    [Reconcile], every [Delete] call on a Job is preceded, in [t], by a
    successful [Update] of a CronJob that owns the Job; and the loop body
    on a CronJob that the image sync leaves unchanged ([updated] false)
    returns no error and leaves the state as it was: no call, no counter,
    no event. *)
Theorem invalidate_after_persist :
  (∀ (fs : Faults) (req : NamespacedName) (st st' : State) (r : option Error),
     Reconcile fs req st = (r, st') →
     ∃ t, trace st' = trace st ++ t
          ∧ ∀ t1 job res t2, t = t1 ++ CallDelete job res :: t2 →
              ∃ cj, In (CallUpdate cj None) t1
                    ∧ isOwnedByCronJob job cj = true)
  ∧ (∀ (fs : Faults) (d : Deployment) (cj : CronJob) (st : State),
       snd (syncImages d (imageByName d) cj) = false →
       reconcileCronJob fs d (imageByName d) cj st = (None, st)).
Proof.
  split.
  - intros fs req st st' r H.
    assert (Hj : ∃ t, trace st' = trace st ++ t ∧ justified [] t).
    { destruct (Reconcile_run _ _ _ _ _ H)
        as [[-> _]|[d [_ [[err [_ [-> _]]]|[cjs [_ Hl]]]]]].
      - exists []. now rewrite app_nil_r.
      - eexists. split; [reflexivity | exact I].
      - destruct (reconcileCronJobs_run _ _ _ _ _ _ _ Hl) as (t & Ht & Hp & _).
        exists (CounterInc syncsTotal (dNamespace d) (dName d) :: t). split.
        + rewrite Ht. cbn [started trace]. now rewrite <- app_assoc.
        + simpl. now apply (PassRun_justified _ _ _ _ _ Hp). }
    destruct Hj as (t & Ht & Hj). exists t. split; [assumption|].
    intros t1 job res t2 Hs.
    destruct (justified_split _ _ _ _ _ _ Hj Hs) as [cj [[[]|Hin] Ho]].
    now exists cj.
  - intros fs d cj st Hu. now apply reconcileCronJob_up_to_date.
Qed.

(** ** C4 *)

Lemma DeleteRun_owned cj items r t :
  DeleteRun cj items r t →
  ∀ job res, In (CallDelete job res) t →
    In job items ∧ isOwnedByCronJob job cj = true.
Proof.
  induction 1 as [ |job rest r t Ho Hr IH|job rest e Ho|job rest e Ho
                  |job rest r t Ho Hr IH]; intros j res Hin.
  - destruct Hin.
  - destruct (IH _ _ Hin). split; [now right | assumption].
  - destruct Hin as [[= <- _]|[]]. split; [now left | assumption].
  - destruct Hin as [[= <- _]|[[=]|[]]]. split; [now left | assumption].
  - destruct Hin as [[= <- _]|[[=]|[[=]|[[=]|Hin]]]].
    + split; [now left | assumption].
    + destruct (IH _ _ Hin). split; [now right | assumption].
Qed.

Lemma JobsRun_owned cj st r t :
  JobsRun cj st r t →
  ∀ job res, In (CallDelete job res) t →
    In job (listedJobs cj st) ∧ isOwnedByCronJob job cj = true.
Proof.
  intros [e|r' t' H] job res Hin; [destruct Hin|].
  now apply (DeleteRun_owned _ _ _ _ H _ res).
Qed.

(** C4 (ownership-exact deletion).  Every [Delete] call that
    [deleteJobsForCronJob] makes for CronJob [cj] is on a Job one of whose
    owner references has kind "CronJob", the name of [cj] and the UID of
    [cj]; so a Job whose owner references of that kind and name all carry
    another UID is never passed to [Delete]. *)
Theorem ownership_exact_deletion (fs : Faults) (cj : CronJob) (st st' : State)
    (r : option Error) :
  deleteJobsForCronJob fs cj st = (r, st') →
  ∃ t, trace st' = trace st ++ t
       ∧ (∀ job res, In (CallDelete job res) t →
            ∃ o, In o (jOwnerReferences job)
                 ∧ orKind o = "CronJob" ∧ orName o = cjName cj
                 ∧ orUID o = cjUID cj)
       ∧ (∀ job res,
            (∀ o, In o (jOwnerReferences job) →
                  orKind o = "CronJob" → orName o = cjName cj →
                  orUID o ≠ cjUID cj) →
            ¬ In (CallDelete job res) t).
Proof.
  intros H.
  destruct (deleteJobsForCronJob_run _ _ _ _ _ H) as (t & Ht & Hr & _).
  exists t. split; [assumption|].
  assert (Ho : ∀ job res, In (CallDelete job res) t →
            ∃ o, In o (jOwnerReferences job)
                 ∧ orKind o = "CronJob" ∧ orName o = cjName cj
                 ∧ orUID o = cjUID cj).
  { intros job res Hin.
    apply isOwnedByCronJob_true. now apply (JobsRun_owned _ _ _ _ Hr _ res). }
  split; [exact Ho|].
  intros job res Hne Hin.
  destruct (Ho _ _ Hin) as (o & Hio & Hk & Hn & Hu).
  now apply (Hne o).
Qed.

(** ** C8 *)

Lemma DeleteRun_counted cj items r t :
  DeleteRun cj items r t →
  ∃ cleaned,
    clearedPods t = map (fun job => (cjNamespace cj, jName job)) cleaned
    ∧ counterIncs jobsDeleted (cjNamespace cj) (cjName cj) t = length cleaned
    ∧ eventsOf t = map (fun job => jobDeletedEvent cj (jName job)) cleaned
    ∧ Forall (fun ev => evType ev = EventTypeNormal) (eventsOf t)
    ∧ match r with
      | None => deletedJobs t = cleaned ∧ podCalls t = clearedPods t
      | Some e =>
          (deletedJobs t = cleaned ∧ podCalls t = clearedPods t)
          ∨ ∃ job, deletedJobs t = cleaned ++ [job]
                   ∧ podCalls t
                     = clearedPods t ++ [(cjNamespace cj, jName job)]
                   ∧ In (CallDeleteAllOfPods (cjNamespace cj) (jName job) (Some e)) t
      end.
Proof.
  induction 1 as [ |job rest r t Ho Hr IH|job rest e Ho|job rest e Ho
                  |job rest r t Ho Hr IH].
  - exists []. repeat split. constructor.
  - exact IH.
  - exists []. repeat split; [constructor | now left].
  - exists []. repeat split; [constructor|].
    right. exists job. split; [reflexivity|]. split; [reflexivity|].
    right. now left.
  - destruct IH as (cleaned & Hp & Hc & He & Hn & Hd).
    exists (job :: cleaned).
    split; [simpl; now rewrite Hp|].
    split.
    { unfold deletionEffects. rewrite counterIncs_app.
      rewrite (counterIncs_cons_other _ _ _ (CallDelete _ _)) by reflexivity.
      rewrite (counterIncs_cons_other _ _ _ (CallDeleteAllOfPods _ _ _))
        by reflexivity.
      rewrite counterIncs_cons_same.
      rewrite (counterIncs_cons_other _ _ _ (RecordEvent _)) by reflexivity.
      change (counterIncs jobsDeleted (cjNamespace cj) (cjName cj) []) with 0.
      simpl. now rewrite Hc. }
    split; [simpl; now rewrite He|].
    split; [simpl; constructor; [reflexivity | assumption]|].
    destruct r as [e|].
    + destruct Hd as [[Hd Hq]|(j & Hd & Hq & Hin)].
      * left. simpl. now rewrite Hd, Hq.
      * right. exists j. simpl. rewrite Hd, Hq.
        split; [reflexivity|]. split; [reflexivity|]. now do 4 right.
    + destruct Hd as [Hd Hq]. simpl. now rewrite Hd, Hq.
Qed.

(** C8, amended (counted per cleaned-up Job).  Along any run of
    [deleteJobsForCronJob] for [cj], let [cleaned] be the Jobs whose
    [Delete] succeeded and whose Pods were then deleted without error, in
    order - they are exactly the Jobs behind the successful [DeleteAllOf]
    calls.  The [jobsDeleted] counter of [cj]'s namespace and name grows by
    one per cleaned Job, and the events recorded are one normal
    [JobDeleted] event per cleaned Job, naming it.  In a run that returns
    no error every Job whose [Delete] succeeded is cleaned.  In a run that
    returns an error, either the same holds (the error came from the
    listing or from a [Delete]) or the last [DeleteAllOf] call failed with
    that error: then the Job it followed was deleted, is the one deleted Job
    that is not cleaned, and is neither counted nor announced. *)
Theorem counted_per_cleaned_job (fs : Faults) (cj : CronJob) (st st' : State)
    (r : option Error) :
  deleteJobsForCronJob fs cj st = (r, st') →
  ∃ cleaned,
    clearedPods (effectsSince st st')
    = map (fun job => (cjNamespace cj, jName job)) cleaned
    ∧ counterIncs jobsDeleted (cjNamespace cj) (cjName cj) (effectsSince st st')
      = length cleaned
    ∧ eventsOf (effectsSince st st')
      = map (fun job => jobDeletedEvent cj (jName job)) cleaned
    ∧ Forall (fun ev => evType ev = EventTypeNormal)
             (eventsOf (effectsSince st st'))
    ∧ match r with
      | None =>
          deletedJobs (effectsSince st st') = cleaned
          ∧ podCalls (effectsSince st st') = clearedPods (effectsSince st st')
      | Some e =>
          (deletedJobs (effectsSince st st') = cleaned
           ∧ podCalls (effectsSince st st') = clearedPods (effectsSince st st'))
          ∨ ∃ job,
              deletedJobs (effectsSince st st') = cleaned ++ [job]
              ∧ podCalls (effectsSince st st')
                = clearedPods (effectsSince st st')
                  ++ [(cjNamespace cj, jName job)]
              ∧ In (CallDeleteAllOfPods (cjNamespace cj) (jName job) (Some e))
                   (effectsSince st st')
      end.
Proof.
  intros H.
  destruct (deleteJobsForCronJob_run _ _ _ _ _ H) as (t & Ht & Hr & _).
  rewrite (effectsSince_app _ _ _ Ht).
  destruct Hr as [e|r t Hr].
  - exists []. repeat split; [constructor | now left].
  - now apply (DeleteRun_counted _ _ _ _ Hr).
Qed.

(** ** C10 *)

Lemma filter_filter_bool {A} (f g : A → bool) l :
  List.filter f (List.filter g l) = List.filter (fun x => g x && f x) l.
Proof.
  induction l as [|x l IH]; simpl; [reflexivity|].
  destruct (g x); simpl; [|assumption].
  destruct (f x); now rewrite IH.
Qed.

Section NoFaults.

Variable fs : Faults.
Hypothesis list_ok : ∀ st ns, failListJobs fs st ns = None.
Hypothesis delete_ok : ∀ st job, failDelete fs st job = None.
Hypothesis pods_ok : ∀ st ns jobName, failDeleteAllOf fs st ns jobName = None.

Lemma deleteJobsLoop_no_faults cj items : ∀ st,
  ∃ st', deleteJobsLoop fs cj items st = (None, st')
         ∧ trace st'
           = trace st
             ++ flat_map (deletionEffects cj) (List.filter (ownedBy cj) items)
         ∧ jobs (cluster st')
           = List.filter (survives (List.filter (ownedBy cj) items))
                         (jobs (cluster st)).
Proof.
  induction items as [|job rest IH]; intros st; cbn [deleteJobsLoop].
  - exists st. simpl. rewrite app_nil_r. repeat split.
    induction (jobs (cluster st)) as [|j l IHl]; simpl; [reflexivity|].
    now rewrite <- IHl.
  - cbn [List.filter]. change (ownedBy cj job) with (isOwnedByCronJob job cj).
    destruct (isOwnedByCronJob job cj) eqn:Eo; cbn [negb]; [|apply IH].
    unfold bind, Delete. rewrite delete_ok.
    unfold DeleteAllOfPods. rewrite pods_ok. unfold emit. cbn [cluster trace].
    match goal with
    | |- ∃ st', deleteJobsLoop fs cj rest ?s = _ ∧ _ =>
        destruct (IH s) as (st' & Hrun & Ht & Hj)
    end.
    exists st'. split; [assumption|].
    cbn [cluster trace jobs setPods setJobs] in Ht, Hj. split.
    + rewrite Ht. cbn [flat_map]. unfold deletionEffects at 2.
      now rewrite <- !app_assoc.
    + rewrite Hj, filter_filter_bool. reflexivity.
Qed.

Lemma deleteJobsForCronJob_no_faults cj st job :
  In job (jobs (cluster st)) →
  jNamespace job = cjNamespace cj →
  isOwnedByCronJob job cj = true →
  ∃ st', deleteJobsForCronJob fs cj st = (None, st')
         ∧ In (CallDelete job None) (effectsSince st st')
         ∧ ¬ In job (jobs (cluster st')).
Proof.
  intros Hin Hns Ho. unfold deleteJobsForCronJob, bind, ListJobs.
  rewrite list_ok. fold (listedJobs cj st).
  destruct (deleteJobsLoop_no_faults cj (listedJobs cj st) st)
    as (st' & Hrun & Ht & Hj).
  exists st'. split; [assumption|].
  assert (Hl : In job (List.filter (ownedBy cj) (listedJobs cj st))).
  { apply filter_In. split; [|assumption].
    apply filter_In. split; [assumption|]. now apply inNamespace_eq. }
  split.
  - rewrite (effectsSince_app _ _ _ Ht). apply in_flat_map.
    exists job. split; [assumption | now left].
  - rewrite Hj. intros Hs. apply filter_In in Hs as [_ Hs].
    unfold survives in Hs. rewrite forallb_forall in Hs.
    specialize (Hs job Hl). unfold sameJob in Hs.
    now rewrite !String.eqb_refl in Hs.
Qed.

End NoFaults.

(** C10 (ownership test).  [isOwnedByCronJob] holds exactly when some
    owner reference of the Job has kind "CronJob" and the CronJob's name
    and UID.  It looks at no other field: rewriting the owner references
    in any way that keeps kind, name and UID (changing apiVersion,
    controller, blockOwnerDeletion) does not change its answer.  Hence
    any Job of the CronJob's namespace with such a reference, whatever
    other references it has and whether or not that reference is the
    controlling one, is passed to [Delete] and, when no client call fails,
    removed from the cluster. *)
Theorem ownership_test_fields :
  (∀ (job : Job) (cj : CronJob),
     isOwnedByCronJob job cj = true
     ↔ ∃ o, In o (jOwnerReferences job)
            ∧ orKind o = "CronJob" ∧ orName o = cjName cj
            ∧ orUID o = cjUID cj)
  ∧ (∀ (f : OwnerReference → OwnerReference) (job : Job) (cj : CronJob),
       (∀ o, orKind (f o) = orKind o ∧ orName (f o) = orName o
             ∧ orUID (f o) = orUID o) →
       isOwnedByCronJob (mapOwners f job) cj = isOwnedByCronJob job cj)
  ∧ (∀ (fs : Faults) (cj : CronJob) (st : State) (job : Job),
       (∀ st ns, failListJobs fs st ns = None) →
       (∀ st job, failDelete fs st job = None) →
       (∀ st ns jobName, failDeleteAllOf fs st ns jobName = None) →
       In job (jobs (cluster st)) →
       jNamespace job = cjNamespace cj →
       isOwnedByCronJob job cj = true →
       ∃ st', deleteJobsForCronJob fs cj st = (None, st')
              ∧ In (CallDelete job None) (effectsSince st st')
              ∧ ¬ In job (jobs (cluster st'))).
Proof.
  split; [apply isOwnedByCronJob_true|]. split.
  - intros f job cj Hf. unfold isOwnedByCronJob, mapOwners. simpl.
    induction (jOwnerReferences job) as [|o l IH]; simpl; [reflexivity|].
    rewrite IH. f_equal. unfold ownerMatches.
    destruct (Hf o) as (-> & -> & ->). reflexivity.
  - intros fs cj st job Hl Hd Hp. now apply deleteJobsForCronJob_no_faults.
Qed.

(** ** C7 *)

Lemma syncOne_frame d byName c : ∃ img, syncOne d byName c = setImage c img.
Proof.
  unfold syncOne. destruct (targetImage d byName c) as [img|].
  - destruct (negb (String.eqb (cImage c) img)).
    + now exists img.
    + exists (cImage c). now rewrite setImage_same.
  - exists (cImage c). now rewrite setImage_same.
Qed.

Lemma syncImages_erase d byName cj :
  eraseImages (fst (syncImages d byName cj)) = eraseImages cj.
Proof.
  rewrite syncImages_spec. unfold eraseImages, setContainers. simpl.
  f_equal. rewrite map_map. apply map_ext. intros c.
  now destruct (syncOne_frame d byName c) as [img ->].
Qed.

Lemma matchedCronJobs_In d (items : list CronJob) cj :
  In cj (matchedCronJobs d items) → In cj items ∧ matches d cj = true.
Proof. rewrite matchedCronJobs_filter. apply filter_In. Qed.

Lemma findCronJobsForDeployment_In fs d st cjs cj :
  fst (findCronJobsForDeployment fs d st) = inr cjs → In cj cjs →
  In cj (cronjobs (cluster st))
  ∧ inNamespace (dNamespace d) (cjNamespace cj) = true ∧ matches d cj = true.
Proof.
  unfold findCronJobsForDeployment, bind, ListCronJobs.
  destruct (failListCronJobs fs st (dNamespace d)); [discriminate|].
  simpl. intros [= <-] Hin.
  apply matchedCronJobs_In in Hin as [Hin Hm].
  apply filter_In in Hin as [Hin Hns].
  now repeat split.
Qed.

Lemma DeleteRun_no_update cj items r t cj' res :
  DeleteRun cj items r t → ¬ In (CallUpdate cj' res) t.
Proof.
  induction 1; simpl; intros Hin;
    repeat (destruct Hin as [Hin|Hin]; [discriminate|]); tauto.
Qed.

Lemma JobsRun_no_update cj st r t cj' res :
  JobsRun cj st r t → ¬ In (CallUpdate cj' res) t.
Proof.
  intros [e|r' t' H]; [intros []|]. now apply (DeleteRun_no_update _ _ _ _ _ _ H).
Qed.

Lemma BodyRun_updates d byName cj0 r t cj' res :
  BodyRun d byName cj0 r t → In (CallUpdate cj' res) t →
  cj' = fst (syncImages d byName cj0).
Proof.
  inversion 1 as [ |e Hu|st e t' Hu Hj|st t' Hu Hj]; subst; simpl; intros Hin.
  - destruct Hin.
  - destruct Hin as [[= <- _]|[[=]|[[=]|[]]]]. reflexivity.
  - destruct Hin as [[= <- _]|[[=]|[[=]|Hin]]]; [reflexivity|].
    apply in_app_or in Hin as [Hin|Hin].
    + now destruct (JobsRun_no_update _ _ _ _ _ _ Hj Hin).
    + destruct Hin as [[=]|[[=]|[]]].
  - destruct Hin as [[= <- _]|[[=]|[[=]|Hin]]]; [reflexivity|].
    apply in_app_or in Hin as [Hin|Hin].
    + now destruct (JobsRun_no_update _ _ _ _ _ _ Hj Hin).
    + destruct Hin as [[=]|[]].
Qed.

Lemma PassRun_updates d byName cjs r t cj' res :
  PassRun d byName cjs r t → In (CallUpdate cj' res) t →
  ∃ cj0, In cj0 cjs ∧ cj' = fst (syncImages d byName cj0).
Proof.
  induction 1 as [ |cj rest e t Hb|cj rest r t1 t2 Hb Hp IH]; intros Hin.
  - destruct Hin.
  - exists cj. split; [now left|]. now apply (BodyRun_updates _ _ _ _ _ _ res Hb).
  - apply in_app_or in Hin as [Hin|Hin].
    + exists cj. split; [now left|]. now apply (BodyRun_updates _ _ _ _ _ _ res Hb).
    + destruct (IH Hin) as [cj0 [H0 ->]]. exists cj0. split; [now right | reflexivity].
Qed.

Lemma replaceCronJob_In cj cjs x :
  In x (replaceCronJob cj cjs) → x = cj ∨ In x cjs.
Proof.
  unfold replaceCronJob. intros Hin. apply in_map_iff in Hin as [old [Hx Hin]].
  destruct (sameCronJob old cj); [now left | right; now subst].
Qed.

Lemma reconcileCronJobs_stored fs d byName cjs : ∀ st r st',
  reconcileCronJobs fs d byName cjs st = (r, st') →
  length (cronjobs (cluster st')) = length (cronjobs (cluster st))
  ∧ ∀ x, In x (cronjobs (cluster st')) →
      In x (cronjobs (cluster st))
      ∨ ∃ cj0, In cj0 cjs ∧ x = fst (syncImages d byName cj0).
Proof.
  induction cjs as [|cj rest IH]; intros st r st' H; cbn [reconcileCronJobs] in H.
  - injection H as <- <-. split; [reflexivity | now left].
  - unfold bind in H.
    destruct (reconcileCronJob fs d byName cj st) as [r1 st1] eqn:E1.
    destruct (reconcileCronJob_run _ _ _ _ _ _ _ E1) as (t1 & _ & _ & _ & Hc).
    assert (H1 : length (cronjobs (cluster st1)) = length (cronjobs (cluster st))
                 ∧ ∀ x, In x (cronjobs (cluster st1)) →
                     In x (cronjobs (cluster st))
                     ∨ x = fst (syncImages d byName cj)).
    { rewrite Hc.
      destruct (snd (syncImages d byName cj)); [|split; [reflexivity | now left]].
      destruct (failUpdate fs st (fst (syncImages d byName cj)));
        [split; [reflexivity | now left]|].
      split; [apply length_map|].
      intros x Hx. apply replaceCronJob_In in Hx. tauto. }
    destruct H1 as [Hlen1 Hin1].
    destruct r1 as [e|].
    + injection H as <- <-. split; [assumption|].
      intros x Hx. destruct (Hin1 x Hx) as [Hx0 | ->]; [now left|].
      right. exists cj. split; [now left | reflexivity].
    + destruct (IH _ _ _ H) as [Hlen2 Hin2]. split; [now rewrite Hlen2|].
      intros x Hx. destruct (Hin2 x Hx) as [Hx1|[cj0 [H0 ->]]].
      * destruct (Hin1 x Hx1) as [Hx0 | ->]; [now left|].
        right. exists cj. split; [now left | reflexivity].
      * right. exists cj0. split; [now right | reflexivity].
Qed.

(** C7 (only images are written).  The image sync returns the CronJob it
    was given with the same namespace, name, UID, labels, annotations and
    remaining fields, and with the same containers in the same order, each
    one changed at most in its image.  Over a whole [Reconcile]: every
    CronJob passed to [Update], and every CronJob stored in the cluster
    afterwards, equals up to container images a CronJob that was stored
    before; no CronJob is added or removed, and the Deployments are as they
    were. *)
Theorem only_images_written :
  (∀ (d : Deployment) (byName : gmap string string) (cj : CronJob),
     cjNamespace (fst (syncImages d byName cj)) = cjNamespace cj
     ∧ cjName (fst (syncImages d byName cj)) = cjName cj
     ∧ cjUID (fst (syncImages d byName cj)) = cjUID cj
     ∧ cjLabels (fst (syncImages d byName cj)) = cjLabels cj
     ∧ cjAnnotations (fst (syncImages d byName cj)) = cjAnnotations cj
     ∧ cjRest (fst (syncImages d byName cj)) = cjRest cj
     ∧ length (cjContainers (fst (syncImages d byName cj)))
       = length (cjContainers cj)
     ∧ ∀ i c, cjContainers cj !! i = Some c →
         ∃ img, cjContainers (fst (syncImages d byName cj)) !! i
                = Some (setImage c img))
  ∧ (∀ (fs : Faults) (req : NamespacedName) (st st' : State) (r : option Error),
       Reconcile fs req st = (r, st') →
       (∀ cj' res, In (CallUpdate cj' res) (effectsSince st st') →
          ∃ cj, In cj (cronjobs (cluster st)) ∧ eraseImages cj' = eraseImages cj)
       ∧ (∀ cj', In cj' (cronjobs (cluster st')) →
            ∃ cj, In cj (cronjobs (cluster st)) ∧ eraseImages cj' = eraseImages cj)
       ∧ length (cronjobs (cluster st')) = length (cronjobs (cluster st))
       ∧ deployments (cluster st') = deployments (cluster st)).
Proof.
  split.
  - intros d byName cj. rewrite syncImages_spec. simpl.
    repeat split; try reflexivity; [apply length_map|].
    intros i c Hc. rewrite lookup_map, Hc. simpl.
    destruct (syncOne_frame d byName c) as [img ->]. now exists img.
  - intros fs req st st' r H.
    destruct (Reconcile_run _ _ _ _ _ H)
      as [[-> _]|[d [_ [[err [_ [-> _]]]|[cjs [Hf Hl]]]]]].
    + unfold effectsSince. rewrite drop_all.
      repeat split; try (intros ? ? []); eauto.
    + rewrite (effectsSince_app st (started d st)
                 [CounterInc syncsTotal (dNamespace d) (dName d)]) by reflexivity.
      repeat split; try (intros ? ? [[=]|[]]); eauto.
    + destruct (reconcileCronJobs_run _ _ _ _ _ _ _ Hl) as (t & Ht & Hp & Hd).
      destruct (reconcileCronJobs_stored _ _ _ _ _ _ _ Hl) as [Hlen Hin].
      assert (Hsrc : ∀ cj0, In cj0 cjs → In cj0 (cronjobs (cluster st))).
      { intros cj0 H0.
        now destruct (findCronJobsForDeployment_In _ _ _ _ _ Hf H0). }
      rewrite (effectsSince_app st st'
                 (CounterInc syncsTotal (dNamespace d) (dName d) :: t)).
      2:{ rewrite Ht. cbn [started trace]. now rewrite <- app_assoc. }
      repeat split; try assumption.
      * intros cj' res [[=]|Hu].
        destruct (PassRun_updates _ _ _ _ _ _ _ Hp Hu) as [cj0 [H0 ->]].
        exists cj0. split; [now apply Hsrc | apply syncImages_erase].
      * intros cj' Hc. destruct (Hin _ Hc) as [Hc0|[cj0 [H0 ->]]].
        -- now exists cj'.
        -- exists cj0. split; [now apply Hsrc | apply syncImages_erase].
Qed.

(** ** C3 *)

Lemma targetImage_setImage d byName c img :
  targetImage d byName (setImage c img) = targetImage d byName c.
Proof. reflexivity. Qed.

Lemma changed_syncOne d byName c : changed d byName (syncOne d byName c) = false.
Proof.
  unfold changed, syncOne.
  destruct (targetImage d byName c) as [img|] eqn:Et.
  - destruct (String.eqb (cImage c) img) eqn:Ee; simpl.
    + now rewrite Et, Ee.
    + rewrite targetImage_setImage, Et. simpl. now rewrite String.eqb_refl.
  - now rewrite Et.
Qed.

(** A second image sync of the result of a first one changes nothing. *)
Lemma syncImages_idempotent d byName cj :
  snd (syncImages d byName (fst (syncImages d byName cj))) = false.
Proof.
  rewrite !syncImages_spec. simpl.
  induction (cjContainers cj) as [|c cs IH]; simpl; [reflexivity|].
  now rewrite changed_syncOne, IH.
Qed.

Lemma syncImages_sameCronJob d byName cj old :
  sameCronJob old (fst (syncImages d byName cj)) = sameCronJob old cj.
Proof. now rewrite syncImages_spec. Qed.

Lemma reconcileCronJobs_settles fs d cjs : ∀ st st',
  reconcileCronJobs fs d (imageByName d) cjs st = (None, st') →
  (∀ e, In e (cronjobs (cluster st)) →
     settled d e
     ∨ ∃ y, In y cjs ∧ sameCronJob e y = true
            ∧ snd (syncImages d (imageByName d) y) = true) →
  ∀ e, In e (cronjobs (cluster st')) → settled d e.
Proof.
  induction cjs as [|cj rest IH]; intros st st' H Hpre;
    cbn [reconcileCronJobs] in H.
  - injection H as <-. intros e He.
    destruct (Hpre e He) as [Hs|[y [[] _]]]. exact Hs.
  - unfold bind in H.
    destruct (reconcileCronJob fs d (imageByName d) cj st) as [r1 st1] eqn:E1.
    destruct r1 as [err|]; [discriminate|].
    apply (IH st1 st' H). intros e He.
    destruct (reconcileCronJob_run _ _ _ _ _ _ _ E1) as (_ & _ & _ & _ & Hc).
    rewrite Hc in He.
    destruct (snd (syncImages d (imageByName d) cj)) eqn:Eu.
    + destruct (failUpdate fs st (fst (syncImages d (imageByName d) cj)))
        as [err|] eqn:Ef.
      { rewrite (reconcileCronJob_update_failed _ _ _ _ _ err Eu Ef) in E1.
        discriminate. }
      unfold replaceCronJob in He. apply in_map_iff in He as [old [Ho Hin]].
      destruct (sameCronJob old (fst (syncImages d (imageByName d) cj))) eqn:Es.
      * subst e. left. intros _ _. apply syncImages_idempotent.
      * subst e. rewrite syncImages_sameCronJob in Es.
        destruct (Hpre old Hin) as [Hs|[y [[<-|Hy] [Hsame Hup]]]].
        -- now left.
        -- rewrite Hsame in Es. discriminate.
        -- right. now exists y.
    + destruct (Hpre e He) as [Hs|[y [[<-|Hy] [Hsame Hup]]]].
      * now left.
      * rewrite Eu in Hup. discriminate.
      * right. now exists y.
Qed.

Lemma reconcileCronJobs_up_to_date fs d byName cjs st :
  (∀ cj, In cj cjs → snd (syncImages d byName cj) = false) →
  reconcileCronJobs fs d byName cjs st = (None, st).
Proof.
  induction cjs as [|cj rest IH]; intros H; cbn [reconcileCronJobs];
    [reflexivity|].
  unfold bind. rewrite reconcileCronJob_up_to_date by (apply H; now left).
  apply IH. intros x Hx. apply H. now right.
Qed.

Lemma sameCronJob_refl cj : sameCronJob cj cj = true.
Proof. unfold sameCronJob. now rewrite !String.eqb_refl. Qed.

Lemma findCronJobsForDeployment_complete fs d st cjs cj :
  fst (findCronJobsForDeployment fs d st) = inr cjs →
  In cj (cronjobs (cluster st)) →
  inNamespace (dNamespace d) (cjNamespace cj) = true →
  matches d cj = true → In cj cjs.
Proof.
  unfold findCronJobsForDeployment, bind, ListCronJobs.
  destruct (failListCronJobs fs st (dNamespace d)); [discriminate|].
  simpl. intros [= <-] Hin Hns Hm.
  rewrite matchedCronJobs_filter. apply filter_In. split; [|assumption].
  apply filter_In. now split.
Qed.

(** After a pass that returned no error, every stored CronJob that the
    matcher selects for the Deployment is in sync with it. *)
Lemma Reconcile_settles fs req st st' d :
  fst (Get fs req st) = inr d →
  Reconcile fs req st = (None, st') →
  deployments (cluster st') = deployments (cluster st)
  ∧ ∀ e, In e (cronjobs (cluster st')) → settled d e.
Proof.
  intros HG H. rewrite (Reconcile_fetched _ _ _ _ HG) in H.
  destruct (fst (findCronJobsForDeployment fs d (started d st)))
    as [err|cjs] eqn:Ef; [discriminate|].
  split.
  - now destruct (reconcileCronJobs_run _ _ _ _ _ _ _ H) as (_ & _ & _ & Hd).
  - apply (reconcileCronJobs_settles _ _ _ _ _ H). intros e He. unfold settled.
    destruct (inNamespace (dNamespace d) (cjNamespace e)) eqn:Hns;
      [|left; intros Hn; discriminate].
    destruct (matches d e) eqn:Em; [|left; intros _ Hm; discriminate].
    destruct (snd (syncImages d (imageByName d) e)) eqn:Eu;
      [|left; now intros _ _].
    right. exists e. split; [|split; [apply sameCronJob_refl | assumption]].
    now apply (findCronJobsForDeployment_complete fs d (started d st)).
Qed.

Lemma Get_deployments fs1 fs2 req st st' :
  deployments (cluster st') = deployments (cluster st) →
  (∀ s key err, failGet fs1 s key = Some err → errReason err ≠ ReasonNotFound) →
  match fst (Get fs1 req st) with
  | inr d =>
      ∀ d', fst (Get fs2 req st') = inr d' → d' = d
  | inl err =>
      IgnoreNotFound err = None → ∀ d', fst (Get fs2 req st') ≠ inr d'
  end.
Proof.
  intros Hd Hnf. unfold Get. rewrite Hd.
  destruct (failGet fs1 st req) as [err1|] eqn:E1; simpl.
  - intros Hi. apply Hnf in E1. unfold IgnoreNotFound in Hi.
    destruct (errReason err1); [now destruct E1 | discriminate | discriminate].
  - destruct (List.find (isDeployment req) (deployments (cluster st))) as [d|];
      simpl.
    + intros d'. destruct (failGet fs2 st' req); simpl; [discriminate|].
      now intros [= <-].
    + intros _ d'. destruct (failGet fs2 st' req); simpl; discriminate.
Qed.

(** C3 (idempotence).  Let a first [Reconcile] of [req] return no error and
    leave the state [st1], the client reporting NotFound only for absent
    objects.  A second [Reconcile] of [req] started in [st1], whatever
    calls fail this time, leaves the cluster as it is, makes no [Update],
    [Delete] or [DeleteAllOf] call and records no event; and the image
    sync finds nothing to change ([updated] false) on every CronJob this
    second pass matches. *)
Theorem reconcile_idempotent (fs1 fs2 : Faults) (req : NamespacedName)
    (st0 st1 st2 : State) (r2 : option Error) :
  (∀ st key err, failGet fs1 st key = Some err →
                 errReason err ≠ ReasonNotFound) →
  Reconcile fs1 req st0 = (None, st1) →
  Reconcile fs2 req st1 = (r2, st2) →
  cluster st2 = cluster st1
  ∧ writes (effectsSince st1 st2) = []
  ∧ eventsOf (effectsSince st1 st2) = []
  ∧ ∀ d cjs,
      fst (Get fs2 req st1) = inr d →
      fst (findCronJobsForDeployment fs2 d (started d st1)) = inr cjs →
      ∀ cj, In cj cjs → snd (syncImages d (imageByName d) cj) = false.
Proof.
  intros Hnf H1 H2.
  assert (Hsettled : ∀ d cjs,
            fst (Get fs2 req st1) = inr d →
            fst (findCronJobsForDeployment fs2 d (started d st1)) = inr cjs →
            ∀ cj, In cj cjs → snd (syncImages d (imageByName d) cj) = false).
  { intros d cjs HG2 Hf cj Hin.
    destruct (findCronJobsForDeployment_In _ _ _ _ _ Hf Hin) as (Hst & Hns & Hm).
    destruct (Reconcile_run _ _ _ _ _ H1) as [[-> [err [HG1 Hi]]]|[d1 [HG1 _]]].
    - pose proof (Get_deployments fs1 fs2 req st0 st0 eq_refl Hnf) as HD.
      rewrite HG1 in HD. symmetry in Hi. now destruct (HD Hi d).
    - destruct (Reconcile_settles _ _ _ _ _ HG1 H1) as [Hd Hs].
      pose proof (Get_deployments fs1 fs2 req st0 st1 Hd Hnf) as HD.
      rewrite HG1 in HD. rewrite (HD d HG2) in *.
      now apply (Hs cj Hst). }
  destruct (Reconcile_run _ _ _ _ _ H2)
    as [[-> _]|[d [HG2 [[err [_ [-> _]]]|[cjs [Hf Hl]]]]]].
  - unfold effectsSince. rewrite drop_all. now repeat split.
  - rewrite (effectsSince_app st1 (started d st1)
               [CounterInc syncsTotal (dNamespace d) (dName d)]) by reflexivity.
    now repeat split.
  - rewrite (reconcileCronJobs_up_to_date fs2 d (imageByName d) cjs) in Hl
      by (apply (Hsettled d cjs HG2 Hf)).
    injection Hl as <- <-.
    rewrite (effectsSince_app st1 (started d st1)
               [CounterInc syncsTotal (dNamespace d) (dName d)]) by reflexivity.
    now repeat split.
Qed.

(** * Further properties of the code *)

(** ** The image sync as a function *)

Lemma syncOne_fixed d byName c :
  syncOne d byName c = c ↔ changed d byName c = false.
Proof.
  unfold syncOne, changed.
  destruct (targetImage d byName c) as [img|]; [|now split].
  destruct (String.eqb_spec (cImage c) img) as [He|Hne]; simpl; [now split|].
  split; [|discriminate]. intros Hs. destruct Hne.
  now rewrite <- Hs.
Qed.

Lemma sync_containers_fixed d byName cs :
  existsb (changed d byName) cs = false ↔ map (syncOne d byName) cs = cs.
Proof.
  induction cs as [|c cs IH]; simpl; [now split|].
  rewrite orb_false_iff, IH, <- syncOne_fixed. split.
  - now intros [-> ->].
  - intros [= H1 H2]. now split.
Qed.

Lemma syncImages_fixed d byName cj :
  snd (syncImages d byName cj) = false ↔ fst (syncImages d byName cj) = cj.
Proof.
  rewrite syncImages_spec. simpl. rewrite sync_containers_fixed. split.
  - intros ->. apply setContainers_same.
  - intros H. now apply (f_equal cjContainers) in H.
Qed.

(** X1 (the [updated] flag is exact).  The image-sync loop reports
    [updated = false] exactly when the CronJob it leaves is the CronJob it
    was given; and running the loop again on its own result changes
    nothing and reports [false]. *)
Theorem sync_flag_exact d byName cj :
  (snd (syncImages d byName cj) = false ↔ fst (syncImages d byName cj) = cj)
  ∧ syncImages d byName (fst (syncImages d byName cj))
    = (fst (syncImages d byName cj), false).
Proof.
  split; [apply syncImages_fixed|].
  pose proof (syncImages_idempotent d byName cj) as Hi.
  pose proof (proj1 (syncImages_fixed _ _ _) Hi) as Hf.
  destruct (syncImages d byName (fst (syncImages d byName cj))) as [x u].
  simpl in Hi, Hf. now subst.
Qed.

(** ** The map from container name to image *)

Lemma find_app_bool {A} (f : A → bool) l1 l2 :
  List.find f (l1 ++ l2)
  = match List.find f l1 with
    | Some x => Some x
    | None => List.find f l2
    end.
Proof.
  induction l1 as [|a l1 IH]; simpl; [reflexivity|]. now destruct (f a).
Qed.

(** X2 (last declaration wins).  [imageByName] maps a name to the image of
    the last Deployment container declared with that name, and has no
    entry exactly for the names no Deployment container carries. *)
Theorem imageByName_last_wins d :
  (∀ pre p post,
     dContainers d = pre ++ p :: post →
     (∀ q, In q post → cName q ≠ cName p) →
     imageByName d !! cName p = Some (cImage p))
  ∧ (∀ n, imageByName d !! n = None
          ↔ ∀ q, In q (dContainers d) → cName q ≠ n).
Proof.
  split; [|apply imageByName_None].
  intros pre p post Hd Hpost.
  rewrite imageByName_lookup, Hd, rev_app_distr. simpl.
  rewrite <- app_assoc, find_app_bool.
  destruct (List.find (hasName (cName p)) (rev post)) as [q|] eqn:E.
  - apply find_some in E as [Hq Hn]. apply in_rev in Hq.
    apply String.eqb_eq in Hn. now destruct (Hpost q Hq).
  - simpl. unfold hasName at 1. now rewrite String.eqb_refl.
Qed.

(** ** The image-sharing rule *)

Lemma depImages_fold (cs : list Container) : ∀ (s : gset string) x,
  x ∈ fold_left (fun s c => {[cImage c]} ∪ s) cs s
  ↔ x ∈ s ∨ ∃ p, In p cs ∧ cImage p = x.
Proof.
  induction cs as [|c cs IH]; intros s x; simpl.
  - split; [now left | now intros [H|[p [[] _]]]].
  - rewrite IH, elem_of_union, elem_of_singleton. split.
    + intros [[->|H]|[p [Hp He]]].
      * right. exists c. split; [now left | reflexivity].
      * now left.
      * right. exists p. split; [now right | assumption].
    + intros [H|[p [[<-|Hp] He]]].
      * left. now right.
      * left. left. now symmetry.
      * right. now exists p.
Qed.

Lemma depImages_elem d x :
  x ∈ depImages d ↔ ∃ p, In p (dContainers d) ∧ cImage p = x.
Proof.
  unfold depImages. rewrite depImages_fold. split.
  - intros [H|H]; [|assumption]. now apply not_elem_of_empty in H.
  - intros H. now right.
Qed.

Lemma hasSharedImage_true cj d :
  hasSharedImage cj d = true
  ↔ ∃ c p, In c (cjContainers cj) ∧ In p (dContainers d) ∧ cImage c = cImage p.
Proof.
  unfold hasSharedImage. rewrite existsb_exists. split.
  - intros [c [Hc Hb]]. apply bool_decide_eq_true in Hb.
    apply depImages_elem in Hb as [p [Hp He]]. exists c, p. now repeat split.
  - intros (c & p & Hc & Hp & He). exists c. split; [assumption|].
    apply bool_decide_eq_true, depImages_elem. now exists p.
Qed.

(** X3 (image rule).  [hasSharedImage] answers true exactly when some
    container of the CronJob's job template has the same image string as
    some container of the Deployment; so it answers false as soon as one
    of the two has no container. *)
Theorem hasSharedImage_spec cj d :
  (hasSharedImage cj d = true
   ↔ ∃ c p, In c (cjContainers cj) ∧ In p (dContainers d)
            ∧ cImage c = cImage p)
  ∧ (cjContainers cj = [] ∨ dContainers d = [] → hasSharedImage cj d = false).
Proof.
  split; [apply hasSharedImage_true|].
  intros H. destruct (hasSharedImage cj d) eqn:E; [|reflexivity].
  apply hasSharedImage_true in E as (c & p & Hc & Hp & _).
  destruct H as [H|H]; rewrite H in *; contradiction.
Qed.

Lemma syncOne_image d c :
  dContainers d ≠ [] →
  ∃ p, In p (dContainers d) ∧ cImage (syncOne d (imageByName d) c) = cImage p.
Proof.
  intros Hne. unfold syncOne, targetImage.
  destruct (imageByName d !! cName c) as [img|] eqn:E.
  - apply imageByName_Some in E as (p & Hp & _ & Hi). exists p.
    split; [assumption|].
    destruct (String.eqb_spec (cImage c) img) as [He|Hn]; simpl; congruence.
  - destruct (dContainers d) as [|first rest]; [now destruct Hne|].
    exists first. split; [now left|].
    destruct (String.eqb_spec (cImage c) (cImage first)) as [He|Hn]; simpl;
      congruence.
Qed.

(** X4 (a synced CronJob keeps matching).  When the Deployment has at
    least one container, every container the image sync leaves in the
    CronJob carries the image of some Deployment container; hence a synced
    CronJob with at least one container satisfies the image rule, and the
    matcher selects it whatever its labels and annotations. *)
Theorem synced_cronjob_shares_image d cj :
  dContainers d ≠ [] →
  (∀ c, In c (cjContainers (fst (syncImages d (imageByName d) cj))) →
        ∃ p, In p (dContainers d) ∧ cImage c = cImage p)
  ∧ (cjContainers cj ≠ [] →
     hasSharedImage (fst (syncImages d (imageByName d) cj)) d = true
     ∧ matches d (fst (syncImages d (imageByName d) cj)) = true).
Proof.
  intros Hne.
  assert (Hall : ∀ c, In c (cjContainers (fst (syncImages d (imageByName d) cj))) →
                   ∃ p, In p (dContainers d) ∧ cImage c = cImage p).
  { intros c. rewrite syncImages_spec. simpl. rewrite in_map_iff.
    intros [c0 [<- _]]. now apply syncOne_image. }
  split; [exact Hall|].
  intros Hcs.
  assert (Hs : hasSharedImage (fst (syncImages d (imageByName d) cj)) d = true).
  { apply hasSharedImage_true.
    destruct (cjContainers (fst (syncImages d (imageByName d) cj)))
      as [|c cs] eqn:E.
    - rewrite syncImages_spec in E. simpl in E.
      apply map_eq_nil in E. now destruct Hcs.
    - destruct (Hall c (or_introl eq_refl)) as [p [Hp He]].
      exists c, p. split; [now left | now split]. }
  split; [exact Hs|]. unfold matches. rewrite Hs. apply orb_true_r.
Qed.

(** ** The matcher as a whole *)

Lemma matchLabel_true d cj :
  matchLabel d cj = true
  ↔ cjLabels cj !! "managed-by-deployment" = Some (dName d).
Proof.
  unfold matchLabel. destruct (cjLabels cj !! "managed-by-deployment") as [v|].
  - rewrite String.eqb_eq. split; [now intros -> | now intros [= ->]].
  - now split.
Qed.

Lemma matchAnnotation_true d cj :
  matchAnnotation d cj = true
  ↔ cjAnnotations cj !! "controller.example.com/managed-by-deployment"
    = Some (dNamespace d +:+ "/" +:+ dName d).
Proof.
  unfold matchAnnotation.
  destruct (cjAnnotations cj !! "controller.example.com/managed-by-deployment")
    as [v|].
  - rewrite String.eqb_eq. split; [now intros -> | now intros [= ->]].
  - now split.
Qed.

Lemma filter_bool_sublist {A} (f : A → bool) (l : list A) :
  List.filter f l `sublist_of` l.
Proof.
  induction l as [|x l IH]; simpl; [constructor|].
  destruct (f x); now constructor.
Qed.

(** X5 (what the matcher returns).  [findCronJobsForDeployment] never
    changes the state and returns the error of a failed listing.
    Otherwise it returns, in the order of the listing, exactly the stored
    CronJobs selected by the Deployment's namespace - those of that
    namespace, or of any namespace when the Deployment's namespace is empty
    - that carry the label [managed-by-deployment] with the Deployment's
    name, or the annotation [controller.example.com/managed-by-deployment]
    with [<namespace>/<name>], or a container image that a Deployment
    container also has. *)
Theorem findCronJobs_spec fs d st :
  snd (findCronJobsForDeployment fs d st) = st
  ∧ (∀ e, failListCronJobs fs st (dNamespace d) = Some e →
          fst (findCronJobsForDeployment fs d st) = inl e)
  ∧ (∀ cjs, fst (findCronJobsForDeployment fs d st) = inr cjs →
       cjs `sublist_of` cronjobs (cluster st)
       ∧ ∀ cj, In cj cjs
           ↔ In cj (cronjobs (cluster st))
             ∧ (dNamespace d = "" ∨ cjNamespace cj = dNamespace d)
             ∧ (cjLabels cj !! "managed-by-deployment" = Some (dName d)
                ∨ cjAnnotations cj
                    !! "controller.example.com/managed-by-deployment"
                  = Some (dNamespace d +:+ "/" +:+ dName d)
                ∨ ∃ c p, In c (cjContainers cj) ∧ In p (dContainers d)
                         ∧ cImage c = cImage p)).
Proof.
  split; [apply findCronJobsForDeployment_state|].
  unfold findCronJobsForDeployment, bind, ListCronJobs.
  destruct (failListCronJobs fs st (dNamespace d)) as [e0|]; simpl.
  - split; [now intros e [= ->] | discriminate].
  - split; [discriminate|]. intros cjs [= <-].
    rewrite matchedCronJobs_filter. split.
    + etransitivity; apply filter_bool_sublist.
    + intros cj. rewrite !filter_In, inNamespace_true. unfold matches.
      rewrite !orb_true_iff, matchLabel_true, matchAnnotation_true,
        hasSharedImage_true.
      tauto.
Qed.

(** ** [Reconcile] when the Deployment cannot be fetched *)

Lemma Get_key fs (req : NamespacedName) st d :
  fst (Get fs req st) = inr d →
  In d (deployments (cluster st))
  ∧ dNamespace d = nnNamespace req ∧ dName d = nnName req
  ∧ dNamespace d ≠ "".
Proof.
  unfold Get. destruct (failGet fs st req); [discriminate|].
  destruct (List.find (isDeployment req) (deployments (cluster st)))
    as [d'|] eqn:E; [|discriminate].
  simpl. intros [= <-]. apply find_some in E as [Hin Hd].
  unfold isDeployment in Hd. apply andb_true_iff in Hd as [Hd H3].
  apply andb_true_iff in Hd as [H1 H2].
  apply String.eqb_eq in H2, H3. apply negb_true_iff, String.eqb_neq in H1.
  repeat split; try assumption. now rewrite H2.
Qed.

(** X6 (a deleted Deployment is not an error).  When [Get] fails,
    [Reconcile] does nothing at all - no counter, no call, no event.  If
    the error is a NotFound it returns success; if it is any other error
    it returns that error.  In particular, with a client that answers and
    no stored Deployment of the requested namespace and name, it returns
    success with the state untouched. *)
Theorem reconcile_deleted_deployment fs (req : NamespacedName) st :
  (∀ err, fst (Get fs req st) = inl err → errReason err = ReasonNotFound →
          Reconcile fs req st = (None, st))
  ∧ (∀ err, fst (Get fs req st) = inl err → errReason err ≠ ReasonNotFound →
            Reconcile fs req st = (Some err, st))
  ∧ (failGet fs st req = None →
     (∀ d, In d (deployments (cluster st)) →
           dNamespace d ≠ nnNamespace req ∨ dName d ≠ nnName req) →
     Reconcile fs req st = (None, st)).
Proof.
  assert (Herr : ∀ err, fst (Get fs req st) = inl err →
                   Reconcile fs req st = (IgnoreNotFound err, st)).
  { intros err HG. unfold Reconcile, bind.
    pose proof (Get_state fs req st) as HS.
    destruct (Get fs req st) as [g st1]. simpl in HG, HS. now subst. }
  split; [|split].
  - intros err HG Hr. rewrite (Herr err HG). unfold IgnoreNotFound.
    now rewrite Hr.
  - intros err HG Hr. rewrite (Herr err HG). unfold IgnoreNotFound.
    destruct (errReason err); [now destruct Hr | reflexivity | reflexivity].
  - intros Hf Hnone.
    destruct (fst (Get fs req st)) as [err|d] eqn:HG.
    + rewrite (Herr err eq_refl). unfold Get in HG. rewrite Hf in HG.
      destruct (List.find (isDeployment req) (deployments (cluster st)));
        [discriminate|].
      simpl in HG. now injection HG as <-.
    + destruct (Get_key _ _ _ _ HG) as (Hin & Hns & Hname & _).
      now destruct (Hnone d Hin).
Qed.

(** ** What the counters count *)

Lemma counterTotal_app k t1 t2 :
  counterTotal k (t1 ++ t2) = counterTotal k t1 + counterTotal k t2.
Proof. unfold counterTotal. now rewrite List.filter_app, length_app. Qed.

Lemma updatedIn_app t1 t2 : updatedIn (t1 ++ t2) = updatedIn t1 ++ updatedIn t2.
Proof. apply flat_map_app. Qed.

Lemma DeleteRun_totals cj items r t ns name :
  DeleteRun cj items r t →
  counterTotal syncErrors t = 0
  ∧ counterTotal syncsTotal t = 0
  ∧ counterIncs syncsTotal ns name t = 0
  ∧ counterTotal cronjobsUpdated t = 0
  ∧ counterIncs cronjobsUpdated ns name t = 0
  ∧ updatedIn t = [].
Proof. induction 1; now repeat split. Qed.

Lemma JobsRun_totals cj st r t ns name :
  JobsRun cj st r t →
  counterTotal syncErrors t = 0
  ∧ counterTotal syncsTotal t = 0
  ∧ counterIncs syncsTotal ns name t = 0
  ∧ counterTotal cronjobsUpdated t = 0
  ∧ counterIncs cronjobsUpdated ns name t = 0
  ∧ updatedIn t = [].
Proof.
  intros [e|r' t' H]; [now repeat split|].
  now apply (DeleteRun_totals _ _ _ _ _ _ H).
Qed.

Ltac count_effects :=
  unfold updateEffects, updateFailedEffects, deleteJobsFailedEffects,
    counterIncs, counterTotal, warnings, hasKey;
  simpl; rewrite ?String.eqb_refl; simpl;
  repeat match goal with
         | |- context [String.eqb ?a ?b] => destruct (String.eqb a b)
         end;
  simpl; try reflexivity.

Lemma BodyRun_totals d byName cj0 r t ns name :
  BodyRun d byName cj0 r t →
  counterTotal syncsTotal t = 0
  ∧ counterIncs syncsTotal ns name t = 0
  ∧ counterTotal syncErrors t = errorCount r
  ∧ counterIncs syncErrors (dNamespace d) (dName d) t = errorCount r
  ∧ length (warnings t) = errorCount r
  ∧ counterTotal cronjobsUpdated t = length (updatedIn t)
  ∧ counterIncs cronjobsUpdated ns name t
    = length (List.filter (hasKey ns name) (updatedIn t)).
Proof.
  inversion 1 as [Hu|e Hu|st e t' Hu Hj|st t' Hu Hj]; subst.
  - now repeat split.
  - repeat split; count_effects.
  - destruct (JobsRun_totals _ _ _ _ ns name Hj)
      as (H1 & H2 & H3 & H4 & H5 & H6).
    destruct (JobsRun_quiet _ _ _ _ (dNamespace d) (dName d) Hj) as [H7 H8].
    repeat split;
      rewrite ?counterTotal_app, ?counterIncs_app, ?warnings_app,
        ?updatedIn_app, ?List.filter_app, ?length_app,
        ?H1, ?H2, ?H3, ?H4, ?H5, ?H6, ?H7, ?H8;
      count_effects.
  - destruct (JobsRun_totals _ _ _ _ ns name Hj)
      as (H1 & H2 & H3 & H4 & H5 & H6).
    destruct (JobsRun_quiet _ _ _ _ (dNamespace d) (dName d) Hj) as [H7 H8].
    repeat split;
      rewrite ?counterTotal_app, ?counterIncs_app, ?warnings_app,
        ?updatedIn_app, ?List.filter_app, ?length_app,
        ?H1, ?H2, ?H3, ?H4, ?H5, ?H6, ?H7, ?H8;
      count_effects.
Qed.

Lemma PassRun_totals d byName cjs r t ns name :
  PassRun d byName cjs r t →
  counterTotal syncsTotal t = 0
  ∧ counterIncs syncsTotal ns name t = 0
  ∧ counterTotal syncErrors t = errorCount r
  ∧ counterIncs syncErrors (dNamespace d) (dName d) t = errorCount r
  ∧ length (warnings t) = errorCount r
  ∧ counterTotal cronjobsUpdated t = length (updatedIn t)
  ∧ counterIncs cronjobsUpdated ns name t
    = length (List.filter (hasKey ns name) (updatedIn t)).
Proof.
  induction 1 as [ |cj rest e t Hb|cj rest r t1 t2 Hb Hp IH].
  - now repeat split.
  - now apply (BodyRun_totals _ _ _ _ _ ns name Hb).
  - destruct IH as (I1 & I2 & I3 & I4 & I5 & I6 & I7).
    destruct (BodyRun_totals _ _ _ _ _ ns name Hb)
      as (B1 & B2 & B3 & B4 & B5 & B6 & B7).
    rewrite !counterTotal_app, !counterIncs_app, !warnings_app, !updatedIn_app,
      !List.filter_app, !length_app.
    rewrite I1, I2, I3, I4, I5, I6, I7, B1, B2, B3, B4, B5, B6, B7.
    now repeat split.
Qed.

Lemma Reconcile_effects fs (req : NamespacedName) st r st' :
  Reconcile fs req st = (r, st') →
  (effectsSince st st' = [] ∧ ∃ err, fst (Get fs req st) = inl err)
  ∨ ∃ d, fst (Get fs req st) = inr d
         ∧ ((∃ err, r = Some err
                    ∧ fst (findCronJobsForDeployment fs d (started d st)) = inl err
                    ∧ effectsSince st st'
                      = [CounterInc syncsTotal (dNamespace d) (dName d)])
            ∨ ∃ cjs t,
                fst (findCronJobsForDeployment fs d (started d st)) = inr cjs
                ∧ PassRun d (imageByName d) cjs r t
                ∧ effectsSince st st'
                  = CounterInc syncsTotal (dNamespace d) (dName d) :: t).
Proof.
  intros H.
  destruct (Reconcile_run _ _ _ _ _ H)
    as [[-> [err [HG _]]]|[d [HG [[err [-> [-> Hf]]]|[cjs [Hf Hl]]]]]].
  - left. split; [|now exists err]. unfold effectsSince. apply drop_all.
  - right. exists d. split; [assumption|]. left. exists err.
    repeat split; [assumption|]. now apply effectsSince_app.
  - right. exists d. split; [assumption|]. right.
    destruct (reconcileCronJobs_run _ _ _ _ _ _ _ Hl) as (t & Ht & Hp & _).
    exists cjs, t. repeat split; try assumption.
    apply effectsSince_app. rewrite Ht. cbn [started trace].
    now rewrite <- app_assoc.
Qed.


(** X8 (what [cronjobsUpdated] counts).  Over one [Reconcile], for every
    namespace and name the [cronjobsUpdated] counter grows by the number of
    successful [Update] calls on a CronJob of that namespace and name; a
    failed [Update] is never counted. *)
Theorem updated_counter_counts_updates fs (req : NamespacedName) st r st' :
  Reconcile fs req st = (r, st') →
  counterTotal cronjobsUpdated (effectsSince st st')
  = length (updatedIn (effectsSince st st'))
  ∧ ∀ ns name,
      counterIncs cronjobsUpdated ns name (effectsSince st st')
      = length (List.filter (hasKey ns name) (updatedIn (effectsSince st st'))).
Proof.
  intros H.
  destruct (Reconcile_effects _ _ _ _ _ H)
    as [[-> _]|[d [_ [(err & _ & _ & ->)|(cjs & t & _ & Hp & ->)]]]];
    [now split | now split |].
  split.
  - now destruct (PassRun_totals _ _ _ _ _ "" "" Hp) as (_ & _ & _ & _ & _ & P6 & _).
  - intros ns name.
    destruct (PassRun_totals _ _ _ _ _ ns name Hp) as (_ & _ & _ & _ & _ & _ & P7).
    rewrite (counterIncs_cons_other _ _ _ (CounterInc syncsTotal _ _))
      by reflexivity.
    exact P7.
Qed.

(** ** [deleteJobsForCronJob]: order, Pods and the store *)

Lemma podCalls_app t1 t2 : podCalls (t1 ++ t2) = podCalls t1 ++ podCalls t2.
Proof. apply flat_map_app. Qed.

Lemma clearedPods_app t1 t2 :
  clearedPods (t1 ++ t2) = clearedPods t1 ++ clearedPods t2.
Proof. apply flat_map_app. Qed.

Lemma DeleteRun_order cj items r t :
  DeleteRun cj items r t →
  ∃ rest, List.filter (ownedBy cj) items = deleteCalls t ++ rest
          ∧ (r = None → rest = []).
Proof.
  induction 1 as [ |job rest r t Ho Hr [k [IH1 IH2]]|job rest e Ho|job rest e Ho
                  |job rest r t Ho Hr [k [IH1 IH2]]];
    cbn [List.filter];
    try (change (ownedBy cj job) with (isOwnedByCronJob job cj); rewrite Ho).
  - now exists [].
  - now exists k.
  - exists (List.filter (ownedBy cj) rest). now split.
  - exists (List.filter (ownedBy cj) rest). now split.
  - exists k. rewrite IH1. now split.
Qed.

Lemma DeleteRun_pods cj items r t :
  DeleteRun cj items r t →
  podCalls t = map (fun job => (cjNamespace cj, jName job)) (deletedJobs t).
Proof.
  induction 1 as [ | | | |job rest r t Ho Hr IH]; try assumption;
    try reflexivity.
  simpl. now rewrite IH.
Qed.

(** X9 (Jobs are deleted in list order, until the first error).  The Jobs
    [deleteJobsForCronJob] calls [Delete] on are an initial part of the
    listed Jobs that the CronJob owns, in the order of the listing; when
    the function returns no error they are all of them.  The listing is
    that of the CronJob's namespace, or of every namespace when the
    CronJob's namespace is empty: every such Job is stored in the cluster
    and, unless the CronJob's namespace is empty, lies in that namespace. *)
Theorem jobs_deleted_in_order fs cj st r st' :
  deleteJobsForCronJob fs cj st = (r, st') →
  deleteCalls (effectsSince st st')
    `prefix_of` List.filter (ownedBy cj) (listedJobs cj st)
  ∧ (r = None →
     deleteCalls (effectsSince st st')
     = List.filter (ownedBy cj) (listedJobs cj st))
  ∧ (∀ job, In job (List.filter (ownedBy cj) (listedJobs cj st))
            ↔ In job (jobs (cluster st))
              ∧ (cjNamespace cj = "" ∨ jNamespace job = cjNamespace cj)
              ∧ isOwnedByCronJob job cj = true)
  ∧ ∀ job, In job (deleteCalls (effectsSince st st')) →
           In job (jobs (cluster st))
           ∧ (cjNamespace cj = "" ∨ jNamespace job = cjNamespace cj).
Proof.
  intros H.
  destruct (deleteJobsForCronJob_run _ _ _ _ _ H) as (t & Ht & Hr & _).
  rewrite (effectsSince_app _ _ _ Ht).
  assert (Hpre : ∃ rest, List.filter (ownedBy cj) (listedJobs cj st)
                         = deleteCalls t ++ rest
                         ∧ (r = None → rest = [])).
  { destruct Hr as [e|r t Hr]; [|now apply (DeleteRun_order _ _ _ _ Hr)].
    exists (List.filter (ownedBy cj) (listedJobs cj st)). now split. }
  destruct Hpre as (rest & Hsplit & Hall).
  assert (Hlisted : ∀ job, In job (List.filter (ownedBy cj) (listedJobs cj st))
                    ↔ In job (jobs (cluster st))
                      ∧ (cjNamespace cj = "" ∨ jNamespace job = cjNamespace cj)
                      ∧ isOwnedByCronJob job cj = true).
  { intros job. unfold listedJobs, ownedBy.
    rewrite !filter_In, inNamespace_true. tauto. }
  split; [now exists rest|]. split; [|split; [exact Hlisted|]].
  - intros Hn. rewrite Hsplit, (Hall Hn). now rewrite app_nil_r.
  - intros job Hin.
    assert (Hf : In job (List.filter (ownedBy cj) (listedJobs cj st))).
    { rewrite Hsplit. apply in_or_app. now left. }
    apply Hlisted in Hf. tauto.
Qed.

(** X10 (Pods follow their Job).  [deleteJobsForCronJob] calls
    [DeleteAllOf] on Pods once for each Job whose [Delete] succeeded, in
    the same order, with the CronJob's namespace and the label
    [job-name] set to that Job's name - and for nothing else. *)
Theorem pods_deleted_with_their_job fs cj st r st' :
  deleteJobsForCronJob fs cj st = (r, st') →
  podCalls (effectsSince st st')
  = map (fun job => (cjNamespace cj, jName job))
        (deletedJobs (effectsSince st st')).
Proof.
  intros H.
  destruct (deleteJobsForCronJob_run _ _ _ _ _ H) as (t & Ht & Hr & _).
  rewrite (effectsSince_app _ _ _ Ht).
  destruct Hr as [e|r t Hr]; [reflexivity|].
  now apply (DeleteRun_pods _ _ _ _ Hr).
Qed.

Lemma filter_all_true {A} (f : A → bool) (l : list A) :
  (∀ x, f x = true) → List.filter f l = l.
Proof.
  intros H. induction l as [|x l IH]; simpl; [reflexivity|].
  now rewrite H, IH.
Qed.

Lemma survives_app gone1 gone2 j :
  survives (gone1 ++ gone2) j = survives gone1 j && survives gone2 j.
Proof. apply forallb_app. Qed.

Lemma podKept_app cleared1 cleared2 p :
  podKept (cleared1 ++ cleared2) p = podKept cleared1 p && podKept cleared2 p.
Proof. apply forallb_app. Qed.

Lemma forallb_false_exists {A} (f : A → bool) (l : list A) :
  forallb f l = false → ∃ x, In x l ∧ f x = false.
Proof.
  induction l as [|a l IH]; simpl; [discriminate|].
  destruct (f a) eqn:E; simpl.
  - intros H. destruct (IH H) as [x [Hx Hf]]. exists x. split; [now right|assumption].
  - intros _. exists a. split; [now left | assumption].
Qed.

Lemma storeAfter_refl st : storeAfter st [] st.
Proof. split; symmetry; now apply filter_all_true. Qed.

Lemma storeAfter_trans st1 t1 st2 t2 st3 :
  storeAfter st1 t1 st2 → storeAfter st2 t2 st3 →
  storeAfter st1 (t1 ++ t2) st3.
Proof.
  intros [J1 P1] [J2 P2]. split.
  - rewrite J2, J1, filter_filter_bool, deletedJobs_app.
    apply filter_ext_all. intros j. now rewrite survives_app.
  - rewrite P2, P1, filter_filter_bool, clearedPods_app.
    apply filter_ext_all. intros p. now rewrite podKept_app.
Qed.

Lemma deleteJobsLoop_store fs cj items : ∀ st r st',
  deleteJobsLoop fs cj items st = (r, st') →
  ∃ t, trace st' = trace st ++ t ∧ storeAfter st t st'.
Proof.
  induction items as [|job rest IH]; intros st r st' H; cbn [deleteJobsLoop] in H.
  - injection H as <- <-. exists []. rewrite app_nil_r.
    split; [reflexivity | apply storeAfter_refl].
  - destruct (isOwnedByCronJob job cj) eqn:Eo; cbn [negb] in H;
      [|now apply IH in H].
    unfold bind, Delete in H.
    destruct (failDelete fs st job) as [e|] eqn:Ed.
    { injection H as <- <-. exists [CallDelete job (Some e)].
      split; [reflexivity|]. apply (storeAfter_refl st). }
    unfold DeleteAllOfPods in H. cbn [cluster trace] in H.
    match type of H with
    | context [failDeleteAllOf fs ?s ?a ?b] =>
        destruct (failDeleteAllOf fs s a b) as [e|] eqn:Ep
    end.
    { injection H as <- <-.
      exists [CallDelete job None;
              CallDeleteAllOfPods (cjNamespace cj) (jName job) (Some e)].
      cbn [cluster trace]. rewrite <- app_assoc. split; [reflexivity|].
      split; cbn [cluster jobs pods setJobs deletedJobs clearedPods flat_map app].
      - apply filter_ext_all. intros j. unfold survives. simpl.
        now rewrite andb_true_r.
      - symmetry. now apply filter_all_true. }
    unfold emit in H. cbn [cluster trace] in H.
    destruct (IH _ _ _ H) as (t & Ht & Hs).
    exists (deletionEffects cj job ++ t).
    cbn [cluster trace] in Ht. split.
    + rewrite Ht. unfold deletionEffects. now rewrite <- !app_assoc.
    + eapply (storeAfter_trans st (deletionEffects cj job)); [|exact Hs].
      split; cbn [cluster jobs pods setJobs setPods].
      * apply filter_ext_all. intros j. unfold survives. simpl.
        now rewrite andb_true_r.
      * apply filter_ext_all. intros p. unfold podKept. simpl.
        now rewrite andb_true_r.
Qed.

Lemma deleteJobsForCronJob_store fs cj st r st' :
  deleteJobsForCronJob fs cj st = (r, st') →
  ∃ t, trace st' = trace st ++ t ∧ storeAfter st t st'.
Proof.
  unfold deleteJobsForCronJob, bind, ListJobs. intros H.
  destruct (failListJobs fs st (cjNamespace cj)) as [e|].
  - injection H as <- <-. exists []. rewrite app_nil_r.
    split; [reflexivity | apply storeAfter_refl].
  - now apply deleteJobsLoop_store in H.
Qed.

Lemma deletedJobs_In t g : In g (deletedJobs t) → In (CallDelete g None) t.
Proof.
  induction t as [|e t IH]; [intros []|].
  destruct e as [|g' [err|]| | |]; simpl; try (intros H; right; now apply IH).
  intros [<-|H]; [now left | right; now apply IH].
Qed.

Lemma clearedPods_podCalls t sel : In sel (clearedPods t) → In sel (podCalls t).
Proof.
  induction t as [|e t IH]; [intros []|].
  destruct e as [| |ns n [err|]| |]; simpl; try assumption.
  - intros H. right. now apply IH.
  - intros [<-|H]; [now left | right; now apply IH].
Qed.

(** X11 (what [deleteJobsForCronJob] does to the store).  Whatever calls
    fail, the function leaves the Deployments and CronJobs alone and adds
    nothing.  A Job that is gone afterwards has the namespace and name of a
    Job the CronJob owns and whose [Delete] succeeded; a Pod that is gone
    afterwards carries the label [job-name] with the name of such a Job
    and, unless the CronJob's namespace is empty (which selects every
    namespace), lies in the CronJob's namespace. *)
Theorem delete_jobs_store_frame fs cj st r st' :
  deleteJobsForCronJob fs cj st = (r, st') →
  deployments (cluster st') = deployments (cluster st)
  ∧ cronjobs (cluster st') = cronjobs (cluster st)
  ∧ (∀ j, In j (jobs (cluster st')) → In j (jobs (cluster st)))
  ∧ (∀ p, In p (pods (cluster st')) → In p (pods (cluster st)))
  ∧ (∀ j, In j (jobs (cluster st)) → ¬ In j (jobs (cluster st')) →
       ∃ g, In g (deletedJobs (effectsSince st st'))
            ∧ isOwnedByCronJob g cj = true
            ∧ jNamespace j = jNamespace g ∧ jName j = jName g)
  ∧ (∀ p, In p (pods (cluster st)) → ¬ In p (pods (cluster st')) →
       (cjNamespace cj = "" ∨ pNamespace p = cjNamespace cj)
       ∧ ∃ g, In g (deletedJobs (effectsSince st st'))
              ∧ isOwnedByCronJob g cj = true
              ∧ pLabels p !! "job-name" = Some (jName g)).
Proof.
  intros H.
  destruct (deleteJobsForCronJob_run _ _ _ _ _ H) as (t & Ht & Hr & Hc & Hd).
  destruct (deleteJobsForCronJob_store _ _ _ _ _ H) as (t' & Ht' & HJ & HP).
  assert (t' = t) as -> by (rewrite Ht' in Ht; now apply app_inv_head in Ht).
  rewrite (effectsSince_app _ _ _ Ht).
  split; [assumption|]. split; [assumption|].
  split; [intros j; rewrite HJ; now intros [Hj _]%filter_In|].
  split; [intros p; rewrite HP; now intros [Hp _]%filter_In|].
  split.
  - intros j Hin Hgone.
    destruct (survives (deletedJobs t) j) eqn:Es.
    { destruct Hgone. rewrite HJ. apply filter_In. now split. }
    apply forallb_false_exists in Es as [g [Hg Hs]].
    apply negb_false_iff in Hs. unfold sameJob in Hs.
    apply andb_true_iff in Hs as [H1 H2]. apply String.eqb_eq in H1, H2.
    exists g. repeat split; try assumption.
    assert (Hcall : In (CallDelete g None) t).
    { clear -Hg. induction t as [|e t IH]; [destruct Hg|].
      destruct e as [|g' [err|]| | |]; simpl in Hg;
        try (right; now apply IH).
      destruct Hg as [<-|Hg]; [now left | right; now apply IH]. }
    now apply (JobsRun_owned _ _ _ _ Hr g None).
  - intros p Hin Hgone.
    destruct (podKept (clearedPods t) p) eqn:Ek.
    { destruct Hgone. rewrite HP. apply filter_In. now split. }
    apply forallb_false_exists in Ek as [sel [Hsel Hs]].
    apply negb_false_iff in Hs.
    apply clearedPods_podCalls in Hsel.
    assert (Hpods : podCalls t
                    = map (fun job => (cjNamespace cj, jName job)) (deletedJobs t)).
    { destruct Hr as [e|r t Hr]; [reflexivity|].
      now apply (DeleteRun_pods _ _ _ _ Hr). }
    rewrite Hpods in Hsel. apply in_map_iff in Hsel as [g [<- Hg]].
    simpl in Hs. unfold podSelected in Hs.
    apply andb_true_iff in Hs as [H1 H2]. apply inNamespace_true in H1.
    split; [assumption|]. exists g. split; [assumption|].
    split; [now apply (JobsRun_owned _ _ _ _ Hr g None), deletedJobs_In|].
    destruct (pLabels p !! "job-name") as [v|]; [|discriminate].
    apply String.eqb_eq in H2. now subst.
Qed.

(** ** The loop body after a successful [Update] *)

Lemma reconcileCronJob_updated fs d byName cj0 st :
  snd (syncImages d byName cj0) = true →
  failUpdate fs st (fst (syncImages d byName cj0)) = None →
  reconcileCronJob fs d byName cj0 st
  = match deleteJobsForCronJob fs (fst (syncImages d byName cj0))
            (updatedState d (fst (syncImages d byName cj0)) st) with
    | (Some e, stj) =>
        (Some e,
         addEffects stj
           (deleteJobsFailedEffects d (fst (syncImages d byName cj0)) e))
    | (None, stj) =>
        (None,
         addEffects stj
           [RecordEvent (jobsRecreatedEvent (fst (syncImages d byName cj0)))])
    end.
Proof.
  unfold reconcileCronJob.
  destruct (syncImages d byName cj0) as [cj u]. simpl. intros -> Hf.
  unfold bind at 1, Update. rewrite Hf.
  unfold bind at 1 2, emit. cbn [cluster trace].
  unfold bind at 1.
  replace (mkState
             (setCronJobs (cluster st)
                (map (fun old => if sameCronJob old cj then cj else old)
                   (cronjobs (cluster st))))
             (((trace st ++ [CallUpdate cj None])
               ++ [CounterInc cronjobsUpdated (cjNamespace cj) (cjName cj)])
              ++ [RecordEvent (cronJobUpdatedEvent d cj)]))
    with (updatedState d cj st).
  2:{ unfold updatedState, updateEffects, replaceCronJob.
      now rewrite <- !app_assoc. }
  destruct (deleteJobsForCronJob fs cj (updatedState d cj st)) as [[e|] stj].
  - unfold bind, emit, ret, addEffects, deleteJobsFailedEffects.
    cbn [cluster trace]. now rewrite <- !app_assoc.
  - reflexivity.
Qed.

Lemma syncImages_containers d d' byName cj :
  dContainers d' = dContainers d →
  syncImages d' byName cj = syncImages d byName cj.
Proof.
  intros H. rewrite !syncImages_spec.
  assert (Ht : ∀ c, targetImage d' byName c = targetImage d byName c).
  { intros c. unfold targetImage. now rewrite H. }
  f_equal.
  - f_equal. apply map_ext. intros c. unfold syncOne. now rewrite Ht.
  - induction (cjContainers cj) as [|c cs IH]; simpl; [reflexivity|].
    rewrite IH. unfold changed. now rewrite Ht.
Qed.

(** X12 (a failed invalidation keeps the update).  When the synced CronJob
    has been stored and [deleteJobsForCronJob] then fails with [e], the
    loop body returns [e] and undoes nothing: the stored CronJob is the
    synced one, [cronjobsUpdated] has been incremented for it, and the
    failure is reported by one increment of [syncErrors] and one
    [DeleteJobsFailed] warning on the CronJob.  From then on, for a
    Deployment with the same containers and the same name-to-image map,
    the loop body finds that CronJob up to date, in any state and whatever
    the client answers: it returns at once without any effect, so it does
    not get to delete the Jobs that are left. *)
Theorem failed_invalidation_keeps_update fs d byName cj0 st e st' :
  reconcileCronJob fs d byName cj0 st = (Some e, st') →
  failUpdate fs st (fst (syncImages d byName cj0)) = None →
  cronjobs (cluster st')
  = replaceCronJob (fst (syncImages d byName cj0)) (cronjobs (cluster st))
  ∧ updatedIn (effectsSince st st') = [fst (syncImages d byName cj0)]
  ∧ counterTotal cronjobsUpdated (effectsSince st st') = 1
  ∧ counterIncs syncErrors (dNamespace d) (dName d) (effectsSince st st') = 1
  ∧ warnings (effectsSince st st')
    = [deleteJobsFailedEvent (fst (syncImages d byName cj0)) e]
  ∧ ∀ fs' d' s,
      dContainers d' = dContainers d →
      reconcileCronJob fs' d' byName (fst (syncImages d byName cj0)) s = (None, s).
Proof.
  intros H Hf.
  destruct (snd (syncImages d byName cj0)) eqn:Eu.
  2:{ rewrite reconcileCronJob_up_to_date in H by assumption. discriminate. }
  rewrite (reconcileCronJob_updated _ _ _ _ _ Eu Hf) in H.
  destruct (deleteJobsForCronJob fs (fst (syncImages d byName cj0))
              (updatedState d (fst (syncImages d byName cj0)) st))
    as [[e'|] stj] eqn:Ej; [|discriminate].
  injection H as <- <-.
  destruct (deleteJobsForCronJob_run _ _ _ _ _ Ej) as (t & Ht & Hr & Hc & _).
  destruct (JobsRun_totals _ _ _ _ "" "" Hr) as (_ & _ & _ & T4 & _ & T6).
  destruct (JobsRun_quiet _ _ _ _ (dNamespace d) (dName d) Hr) as [Q1 Q2].
  assert (Heff : effectsSince st
                   (addEffects stj
                      (deleteJobsFailedEffects d (fst (syncImages d byName cj0)) e'))
                 = updateEffects d (fst (syncImages d byName cj0)) ++ t
                   ++ deleteJobsFailedEffects d (fst (syncImages d byName cj0)) e').
  { apply effectsSince_app. cbn [addEffects trace]. rewrite Ht.
    cbn [updatedState trace]. now rewrite <- !app_assoc. }
  rewrite Heff. cbn [addEffects cluster].
  split; [exact Hc|].
  split; [now rewrite !updatedIn_app, T6|].
  split; [rewrite !counterTotal_app, T4; reflexivity|].
  split.
  { rewrite !counterIncs_app, Q1. count_effects. }
  split; [now rewrite !warnings_app, Q2|].
  intros fs' d' s Hd'. apply reconcileCronJob_up_to_date.
  rewrite (syncImages_containers d d' byName _ Hd').
  apply syncImages_idempotent.
Qed.

(** ** A whole iteration when nothing fails *)

(** X13 (a full sync, step by step).  When no client call fails and the
    image sync changes the CronJob, one iteration of the loop returns no
    error after exactly these effects, in this order: the [Update] of the
    synced CronJob, its [cronjobsUpdated] increment and [CronJobUpdated]
    event; for every Job of its namespace that it owns, in list order, the
    [Delete] of the Job, the [DeleteAllOf] of its Pods, a [jobsDeleted]
    increment and a [JobDeleted] event; and one [JobsRecreated] event.
    Afterwards the store holds the synced CronJob and none of those
    Jobs. *)
Theorem full_sync_effects fs d byName cj0 st :
  (∀ s cj, failUpdate fs s cj = None) →
  (∀ s ns, failListJobs fs s ns = None) →
  (∀ s job, failDelete fs s job = None) →
  (∀ s ns jobName, failDeleteAllOf fs s ns jobName = None) →
  snd (syncImages d byName cj0) = true →
  ∃ st',
    reconcileCronJob fs d byName cj0 st = (None, st')
    ∧ effectsSince st st'
      = updateEffects d (fst (syncImages d byName cj0))
        ++ flat_map (deletionEffects (fst (syncImages d byName cj0)))
             (List.filter (ownedBy (fst (syncImages d byName cj0)))
                (listedJobs (fst (syncImages d byName cj0)) st))
        ++ [RecordEvent (jobsRecreatedEvent (fst (syncImages d byName cj0)))]
    ∧ cronjobs (cluster st')
      = replaceCronJob (fst (syncImages d byName cj0)) (cronjobs (cluster st))
    ∧ jobs (cluster st')
      = List.filter
          (survives (List.filter (ownedBy (fst (syncImages d byName cj0)))
                       (listedJobs (fst (syncImages d byName cj0)) st)))
          (jobs (cluster st)).
Proof.
  intros Hu Hl Hd Hp Eu.
  rewrite (reconcileCronJob_updated _ _ _ _ _ Eu (Hu _ _)).
  unfold deleteJobsForCronJob, bind, ListJobs. rewrite Hl.
  destruct (deleteJobsLoop_no_faults fs Hd Hp (fst (syncImages d byName cj0))
              (List.filter
                 (fun j => inNamespace
                             (cjNamespace (fst (syncImages d byName cj0)))
                             (jNamespace j))
                 (jobs (cluster (updatedState d (fst (syncImages d byName cj0)) st))))
              (updatedState d (fst (syncImages d byName cj0)) st))
    as (stj & Hrun & Ht & Hj).
  rewrite Hrun. eexists. split; [reflexivity|].
  destruct (deleteJobsLoop_run _ _ _ _ _ _ Hrun) as (_ & _ & _ & Hc & _).
  cbn [addEffects cluster trace]. split; [|split].
  - apply effectsSince_app. unfold addEffects. cbn [trace]. rewrite Ht.
    cbn [updatedState trace]. now rewrite <- !app_assoc.
  - exact Hc.
  - exact Hj.
Qed.

(** ** What a whole [Reconcile] does to Jobs and Pods *)

Lemma storeAfter_quiet st t st' :
  jobs (cluster st') = jobs (cluster st) →
  pods (cluster st') = pods (cluster st) →
  deletedJobs t = [] → clearedPods t = [] →
  storeAfter st t st'.
Proof.
  intros HJ HP Hd Hc. unfold storeAfter. rewrite HJ, HP, Hd, Hc.
  split; symmetry; now apply filter_all_true.
Qed.

Lemma reconcileCronJob_store fs d byName cj0 st r st' :
  reconcileCronJob fs d byName cj0 st = (r, st') →
  ∃ t, trace st' = trace st ++ t ∧ storeAfter st t st'.
Proof.
  intros H.
  destruct (snd (syncImages d byName cj0)) eqn:Eu.
  2:{ rewrite reconcileCronJob_up_to_date in H by assumption.
      injection H as <- <-. exists []. rewrite app_nil_r.
      split; [reflexivity | apply storeAfter_refl]. }
  destruct (failUpdate fs st (fst (syncImages d byName cj0))) as [e|] eqn:Ef.
  { rewrite (reconcileCronJob_update_failed _ _ _ _ _ e Eu Ef) in H.
    injection H as <- <-. eexists. split; [reflexivity|].
    now apply storeAfter_quiet. }
  rewrite (reconcileCronJob_updated _ _ _ _ _ Eu Ef) in H.
  destruct (deleteJobsForCronJob fs (fst (syncImages d byName cj0))
              (updatedState d (fst (syncImages d byName cj0)) st))
    as [rj stj] eqn:Ej.
  destruct (deleteJobsForCronJob_store _ _ _ _ _ Ej) as (t & Ht & Hs).
  assert (H1 : storeAfter st (updateEffects d (fst (syncImages d byName cj0)))
                 (updatedState d (fst (syncImages d byName cj0)) st))
    by now apply storeAfter_quiet.
  pose proof (storeAfter_trans _ _ _ _ _ H1 Hs) as H2.
  destruct rj as [e|]; injection H as <- <-.
  - eexists. split.
    + unfold addEffects. cbn [trace]. rewrite Ht. cbn [updatedState trace].
      rewrite <- !app_assoc. reflexivity.
    + rewrite app_assoc. eapply storeAfter_trans; [exact H2|].
      now apply storeAfter_quiet.
  - eexists. split.
    + unfold addEffects. cbn [trace]. rewrite Ht. cbn [updatedState trace].
      rewrite <- !app_assoc. reflexivity.
    + rewrite app_assoc. eapply storeAfter_trans; [exact H2|].
      now apply storeAfter_quiet.
Qed.

Lemma reconcileCronJobs_store fs d byName cjs : ∀ st r st',
  reconcileCronJobs fs d byName cjs st = (r, st') →
  ∃ t, trace st' = trace st ++ t ∧ storeAfter st t st'.
Proof.
  induction cjs as [|cj rest IH]; intros st r st' H; cbn [reconcileCronJobs] in H.
  - injection H as <- <-. exists []. rewrite app_nil_r.
    split; [reflexivity | apply storeAfter_refl].
  - unfold bind in H.
    destruct (reconcileCronJob fs d byName cj st) as [r1 st1] eqn:E1.
    destruct (reconcileCronJob_store _ _ _ _ _ _ _ E1) as (t1 & Ht1 & Hs1).
    destruct r1 as [e|].
    + injection H as <- <-. now exists t1.
    + destruct (IH _ _ _ H) as (t2 & Ht2 & Hs2). exists (t1 ++ t2). split.
      * now rewrite Ht2, Ht1, app_assoc.
      * now apply (storeAfter_trans _ _ st1).
Qed.

Lemma JobsRun_podKeys cj st r t sel :
  cjNamespace cj ≠ "" →
  JobsRun cj st r t → In sel (podCalls t) →
  ∃ g, In g (deletedJobs t) ∧ sel = jobKey g ∧ jNamespace g ≠ "".
Proof.
  intros Hne Hr Hin.
  assert (Hpods : podCalls t
                  = map (fun job => (cjNamespace cj, jName job)) (deletedJobs t)).
  { destruct Hr as [e|r t Hr]; [reflexivity|].
    now apply (DeleteRun_pods _ _ _ _ Hr). }
  rewrite Hpods in Hin. apply in_map_iff in Hin as [g [<- Hg]].
  exists g. split; [assumption|].
  destruct (JobsRun_owned _ _ _ _ Hr g None (deletedJobs_In _ _ Hg)) as [Hl _].
  unfold listedJobs in Hl. apply filter_In in Hl as [_ Hns].
  apply (inNamespace_named _ _ Hne) in Hns. unfold jobKey.
  rewrite Hns. now split.
Qed.

Lemma syncImages_namespace d byName cj :
  cjNamespace (fst (syncImages d byName cj)) = cjNamespace cj.
Proof. now rewrite syncImages_spec. Qed.

Lemma BodyRun_podKeys d byName cj0 r t sel :
  cjNamespace cj0 ≠ "" →
  BodyRun d byName cj0 r t → In sel (podCalls t) →
  ∃ g, In g (deletedJobs t) ∧ sel = jobKey g ∧ jNamespace g ≠ "".
Proof.
  intros Hne. rewrite <- (syncImages_namespace d byName cj0) in Hne.
  inversion 1 as [Hu|e Hu|st e t' Hu Hj|st t' Hu Hj]; subst;
    try (intros []).
  - rewrite !podCalls_app, !deletedJobs_app. simpl. rewrite app_nil_r.
    intros Hin.
    destruct (JobsRun_podKeys _ _ _ _ _ Hne Hj Hin) as (g & Hg & -> & Hg').
    exists g. rewrite app_nil_r. now repeat split.
  - rewrite !podCalls_app, !deletedJobs_app. simpl. rewrite app_nil_r.
    intros Hin.
    destruct (JobsRun_podKeys _ _ _ _ _ Hne Hj Hin) as (g & Hg & -> & Hg').
    exists g. rewrite app_nil_r. now repeat split.
Qed.

Lemma PassRun_podKeys d byName cjs r t sel :
  (∀ cj, In cj cjs → cjNamespace cj ≠ "") →
  PassRun d byName cjs r t → In sel (podCalls t) →
  ∃ g, In g (deletedJobs t) ∧ sel = jobKey g ∧ jNamespace g ≠ "".
Proof.
  intros Hne Hp. induction Hp as [ |cj rest e t Hb|cj rest r t1 t2 Hb Hp IH];
    intros Hin.
  - destruct Hin.
  - apply (BodyRun_podKeys _ _ _ _ _ _ (Hne cj (or_introl eq_refl)) Hb Hin).
  - rewrite podCalls_app in Hin. rewrite deletedJobs_app.
    apply in_app_or in Hin as [Hin|Hin].
    + destruct (BodyRun_podKeys _ _ _ _ _ _ (Hne cj (or_introl eq_refl)) Hb Hin)
        as (g & Hg & -> & Hg').
      exists g. split; [apply in_or_app; now left | now split].
    + destruct (IH (fun x Hx => Hne x (or_intror Hx)) Hin) as (g & Hg & -> & Hg').
      exists g. split; [apply in_or_app; now right | now split].
Qed.

(** X14 ([Reconcile] creates nothing and removes only what it deleted).
    Whatever calls fail, one [Reconcile] leaves the Deployments as they
    are and adds no Job and no Pod.  A Job that is gone afterwards has the
    namespace and name of a Job whose [Delete] succeeded in this pass; a
    Pod that is gone afterwards lies in the namespace of such a Job and
    carries the label [job-name] with its name. *)
Theorem reconcile_only_removes fs (req : NamespacedName) st r st' :
  Reconcile fs req st = (r, st') →
  deployments (cluster st') = deployments (cluster st)
  ∧ (∀ j, In j (jobs (cluster st')) → In j (jobs (cluster st)))
  ∧ (∀ p, In p (pods (cluster st')) → In p (pods (cluster st)))
  ∧ (∀ j, In j (jobs (cluster st)) → ¬ In j (jobs (cluster st')) →
       ∃ g, In g (deletedJobs (effectsSince st st')) ∧ jobKey j = jobKey g)
  ∧ (∀ p, In p (pods (cluster st)) → ¬ In p (pods (cluster st')) →
       ∃ g, In g (deletedJobs (effectsSince st st'))
            ∧ pNamespace p = jNamespace g
            ∧ pLabels p !! "job-name" = Some (jName g)).
Proof.
  intros H.
  assert (Hrun : ∃ t, effectsSince st st' = t ∧ storeAfter st t st'
                      ∧ deployments (cluster st') = deployments (cluster st)
                      ∧ ∀ sel, In sel (podCalls t) →
                          ∃ g, In g (deletedJobs t) ∧ sel = jobKey g
                               ∧ jNamespace g ≠ "").
  { destruct (Reconcile_run _ _ _ _ _ H)
      as [[-> _]|[d [HG [[err [_ [-> _]]]|[cjs [Hf Hl]]]]]].
    - exists []. split; [unfold effectsSince; apply drop_all|].
      split; [apply storeAfter_refl|]. split; [reflexivity | intros sel []].
    - exists [CounterInc syncsTotal (dNamespace d) (dName d)].
      split; [now apply effectsSince_app|].
      split; [now apply storeAfter_quiet|]. split; [reflexivity | intros sel []].
    - destruct (reconcileCronJobs_run _ _ _ _ _ _ _ Hl) as (t & Ht & Hp & Hd).
      destruct (reconcileCronJobs_store _ _ _ _ _ _ _ Hl) as (t' & Ht' & Hs).
      assert (t' = t) as -> by (rewrite Ht' in Ht; now apply app_inv_head in Ht).
      exists (CounterInc syncsTotal (dNamespace d) (dName d) :: t).
      split; [|split; [|split]].
      + apply effectsSince_app. rewrite Ht. cbn [started trace].
        now rewrite <- app_assoc.
      + exact Hs.
      + exact Hd.
      + intros sel Hin. apply (PassRun_podKeys _ _ _ _ _ _) with (2 := Hp);
          [|assumption].
        intros cj Hcj.
        destruct (findCronJobsForDeployment_In _ _ _ _ _ Hf Hcj) as (_ & Hns & _).
        destruct (Get_key _ _ _ _ HG) as (_ & _ & _ & Hd0).
        rewrite (inNamespace_named _ _ Hd0 Hns). exact Hd0. }
  destruct Hrun as (t & -> & [HJ HP] & Hd & Hkeys).
  split; [assumption|].
  split; [intros j; rewrite HJ; now intros [Hj _]%filter_In|].
  split; [intros p; rewrite HP; now intros [Hp _]%filter_In|].
  split.
  - intros j Hin Hgone.
    destruct (survives (deletedJobs t) j) eqn:Es.
    { destruct Hgone. rewrite HJ. apply filter_In. now split. }
    apply forallb_false_exists in Es as [g [Hg Hs]].
    apply negb_false_iff in Hs. unfold sameJob in Hs.
    apply andb_true_iff in Hs as [H1 H2]. apply String.eqb_eq in H1, H2.
    exists g. split; [assumption|]. unfold jobKey. now rewrite H1, H2.
  - intros p Hin Hgone.
    destruct (podKept (clearedPods t) p) eqn:Ek.
    { destruct Hgone. rewrite HP. apply filter_In. now split. }
    apply forallb_false_exists in Ek as [sel [Hsel Hs]].
    apply negb_false_iff in Hs. apply clearedPods_podCalls in Hsel.
    destruct (Hkeys sel Hsel) as (g & Hg & -> & Hg'). simpl in Hs.
    unfold podSelected in Hs. apply andb_true_iff in Hs as [H1 H2].
    apply (inNamespace_named _ _ Hg') in H1.
    exists g. repeat split; try assumption.
    destruct (pLabels p !! "job-name") as [v|]; [|discriminate].
    apply String.eqb_eq in H2. now subst.
Qed.

(** ** No spurious writes *)

Lemma BodyRun_updates_changed d byName cj0 r t cj' res :
  BodyRun d byName cj0 r t → In (CallUpdate cj' res) t →
  snd (syncImages d byName cj0) = true.
Proof.
  inversion 1; subst; intros Hin; try assumption. destruct Hin.
Qed.

Lemma PassRun_updates_changed d byName cjs r t cj' res :
  PassRun d byName cjs r t → In (CallUpdate cj' res) t →
  ∃ cj0, In cj0 cjs ∧ snd (syncImages d byName cj0) = true
         ∧ cj' = fst (syncImages d byName cj0).
Proof.
  induction 1 as [ |cj rest e t Hb|cj rest r t1 t2 Hb Hp IH]; intros Hin.
  - destruct Hin.
  - exists cj. split; [now left|]. split.
    + now apply (BodyRun_updates_changed _ _ _ _ _ cj' res Hb).
    + now apply (BodyRun_updates _ _ _ _ _ _ res Hb).
  - apply in_app_or in Hin as [Hin|Hin].
    + exists cj. split; [now left|]. split.
      * now apply (BodyRun_updates_changed _ _ _ _ _ cj' res Hb).
      * now apply (BodyRun_updates _ _ _ _ _ _ res Hb).
    + destruct (IH Hin) as (cj0 & H0 & Hu & ->).
      exists cj0. split; [now right | now split].
Qed.

(** X15 (no spurious writes).  Every CronJob that one [Reconcile] passes
    to [Update], successfully or not, is the image sync of a stored CronJob
    of the fetched Deployment's namespace that the matcher selects and
    that the sync really changes: a CronJob that is already in sync, one
    the matcher does not select, or one of another namespace is never
    written. *)
Theorem updates_only_changed_matches fs (req : NamespacedName) st r st' :
  Reconcile fs req st = (r, st') →
  ∀ cj' res, In (CallUpdate cj' res) (effectsSince st st') →
    ∃ d cj0,
      fst (Get fs req st) = inr d
      ∧ In cj0 (cronjobs (cluster st))
      ∧ cjNamespace cj0 = dNamespace d
      ∧ matches d cj0 = true
      ∧ cj' = fst (syncImages d (imageByName d) cj0)
      ∧ cj' ≠ cj0.
Proof.
  intros H cj' res Hin.
  destruct (Reconcile_effects _ _ _ _ _ H)
    as [[Ht _]|[d [HG [(err & _ & _ & Ht)|(cjs & t & Hf & Hp & Ht)]]]];
    rewrite Ht in Hin.
  - destruct Hin.
  - destruct Hin as [[=]|[]].
  - destruct Hin as [[=]|Hin].
    destruct (PassRun_updates_changed _ _ _ _ _ _ _ Hp Hin) as (cj0 & H0 & Hu & ->).
    destruct (findCronJobsForDeployment_In _ _ _ _ _ Hf H0) as (Hs & Hns & Hm).
    destruct (Get_key _ _ _ _ HG) as (_ & _ & _ & Hd0).
    apply (inNamespace_named _ _ Hd0) in Hns.
    exists d, cj0.
    split; [assumption|]. split; [assumption|]. split; [assumption|].
    split; [assumption|]. split; [reflexivity|].
    intros Heq. apply syncImages_fixed in Heq. rewrite Hu in Heq. discriminate.
Qed.

End Properties.

(** * The theorems at the concrete cluster *)

(** Rule (c) alone selects a CronJob that merely shares an image. *)
Example heuristic_false_positive :
  matchedCronJobs web [otherCron; webCron] = [otherCron; webCron]
  ∧ matchLabel web otherCron = false
  ∧ matchAnnotation web otherCron = false.
Proof. vm_compute. repeat split. Qed.

Example sync_webCron :
  syncImages web (imageByName web) webCron
  = (mkCronJob "default" "web-cron" "uid-2"
       {["managed-by-deployment" := "web"]} ∅
       [ mkContainer "nginx" "nginx:1.22" "curl localhost";
         mkContainer "sidecar" "nginx:1.22" "sleep 1" ] "*/5 * * * *",
     true).
Proof. vm_compute. reflexivity. Qed.

(** The "update" scenario, run to the end. *)
Example reconcile_update_scenario :
  Reconcile noFaults webKey state0
  = (None,
     mkState (mkCluster [web] [webCronSynced] [staleJob] [])
       [ CounterInc syncsTotal "default" "web";
         CallUpdate webCronSynced None;
         CounterInc cronjobsUpdated "default" "web-cron";
         RecordEvent (cronJobUpdatedEvent web webCronSynced);
         CallDelete ownedJob None;
         CallDeleteAllOfPods "default" "web-cron-28" None;
         CounterInc jobsDeleted "default" "web-cron";
         RecordEvent (jobDeletedEvent webCronSynced "web-cron-28");
         RecordEvent (jobsRecreatedEvent webCronSynced) ]).
Proof. vm_compute. reflexivity. Qed.

(** A second pass over the result does nothing but count itself. *)
Example reconcile_noop_scenario :
  effectsSince (snd (Reconcile noFaults webKey state0))
    (snd (Reconcile noFaults webKey (snd (Reconcile noFaults webKey state0))))
  = [CounterInc syncsTotal "default" "web"].
Proof. vm_compute. reflexivity. Qed.

Lemma name_based_sync_complete_witness :
  cjContainers webCron !! 0 = Some nginx121
  ∧ (∃ p, In p (dContainers web) ∧ cName p = cName nginx121)
  ∧ ∃ c',
      cjContainers (fst (syncImages web (imageByName web) webCron)) !! 0
      = Some c'
      ∧ cImage c' = "nginx:1.22"
      ∧ cName c' = "nginx"
      ∧ cRest c' = "curl localhost".
Proof.
  assert (H1 : cjContainers webCron !! 0 = Some nginx121) by reflexivity.
  assert (H2 : ∃ p, In p (dContainers web) ∧ cName p = cName nginx121).
  { exists nginx122. split; [now left | reflexivity]. }
  split; [exact H1|]. split; [exact H2|].
  destruct (name_based_sync_complete web webCron 0 nginx121 H1 H2)
    as (img & c' & Hm & Hl & Hi & Hn & Hr & _).
  assert (Hweb : imageByName web !! cName nginx121 = Some "nginx:1.22")
    by (vm_compute; reflexivity).
  rewrite Hweb in Hm. injection Hm as <-.
  exists c'. split; [exact Hl|]. split; [exact Hi|]. split; [exact Hn | exact Hr].
Defined.

Lemma positional_fallback_witness :
  cjContainers webCron !! 1 = Some sidecar
  ∧ (∀ p, In p (dContainers web) → cName p ≠ cName sidecar)
  ∧ ∃ c',
      cjContainers (fst (syncImages web (imageByName web) webCron)) !! 1
      = Some c'
      ∧ cImage c' = "nginx:1.22"
      ∧ cName c' = "sidecar"
      ∧ cRest c' = "sleep 1"
      ∧ snd (syncImages web (imageByName web) webCron) = true.
Proof.
  assert (H1 : cjContainers webCron !! 1 = Some sidecar) by reflexivity.
  assert (H2 : ∀ p, In p (dContainers web) → cName p ≠ cName sidecar).
  { intros p [<-|[]]. discriminate. }
  split; [exact H1|]. split; [exact H2|].
  destruct (positional_fallback web webCron 1 sidecar H1 H2)
    as (c' & Hl & Hi & Hn & Hr & Hu & _).
  exists c'. split; [exact Hl|]. split; [exact Hi|]. split; [exact Hn|].
  split; [exact Hr|]. apply Hu. discriminate.
Defined.

Lemma reconcile_idempotent_witness :
  Reconcile noFaults webKey state0
  = (None, snd (Reconcile noFaults webKey state0))
  ∧ cluster (snd (Reconcile noFaults webKey
                    (snd (Reconcile noFaults webKey state0))))
    = cluster (snd (Reconcile noFaults webKey state0))
  ∧ writes (effectsSince (snd (Reconcile noFaults webKey state0))
              (snd (Reconcile noFaults webKey
                      (snd (Reconcile noFaults webKey state0))))) = []
  ∧ eventsOf (effectsSince (snd (Reconcile noFaults webKey state0))
                (snd (Reconcile noFaults webKey
                        (snd (Reconcile noFaults webKey state0))))) = []
  ∧ snd (syncImages web (imageByName web) webCronSynced) = false.
Proof.
  assert (H1 : Reconcile noFaults webKey state0
               = (None, snd (Reconcile noFaults webKey state0)))
    by (vm_compute; reflexivity).
  split; [exact H1|].
  destruct (reconcile_idempotent noFaults noFaults webKey state0
              (snd (Reconcile noFaults webKey state0))
              (snd (Reconcile noFaults webKey
                      (snd (Reconcile noFaults webKey state0))))
              (fst (Reconcile noFaults webKey
                      (snd (Reconcile noFaults webKey state0)))))
    as (Hc & Hw & He & Hs).
  - intros st key err. discriminate.
  - exact H1.
  - now destruct (Reconcile noFaults webKey
                    (snd (Reconcile noFaults webKey state0))).
  - split; [exact Hc|]. split; [exact Hw|]. split; [exact He|].
    apply (Hs web [webCronSynced]).
    + reflexivity.
    + vm_compute. reflexivity.
    + now left.
Defined.

Lemma ownership_exact_deletion_witness :
  deleteJobsForCronJob noFaults webCronSynced state0
  = (None, snd (deleteJobsForCronJob noFaults webCronSynced state0))
  ∧ (∀ o, In o (jOwnerReferences staleJob) →
          orKind o = "CronJob" → orName o = cjName webCronSynced →
          orUID o ≠ cjUID webCronSynced)
  ∧ ∃ t, trace (snd (deleteJobsForCronJob noFaults webCronSynced state0))
         = trace state0 ++ t
         ∧ (∀ job res, In (CallDelete job res) t →
              ∃ o, In o (jOwnerReferences job)
                   ∧ orKind o = "CronJob" ∧ orName o = cjName webCronSynced
                   ∧ orUID o = cjUID webCronSynced)
         ∧ ∀ res, ¬ In (CallDelete staleJob res) t.
Proof.
  assert (H1 : deleteJobsForCronJob noFaults webCronSynced state0
               = (None, snd (deleteJobsForCronJob noFaults webCronSynced state0)))
    by (vm_compute; reflexivity).
  assert (H2 : ∀ o, In o (jOwnerReferences staleJob) →
                 orKind o = "CronJob" → orName o = cjName webCronSynced →
                 orUID o ≠ cjUID webCronSynced).
  { intros o [<-|[]] _ _. discriminate. }
  split; [exact H1|]. split; [exact H2|].
  destruct (ownership_exact_deletion noFaults webCronSynced state0 _ None H1)
    as (t & Ht & Ho & Hne).
  exists t. split; [exact Ht|]. split; [exact Ho|].
  intros res. exact (Hne staleJob res H2).
Defined.

Lemma match_exclusive_witness :
  NoDup [webCron; otherCron]
  ∧ Permutation rulesReordered (matchRules web)
  ∧ NoDup (matchedCronJobs web [webCron; otherCron])
  ∧ matchedCronJobsWith rulesReordered [webCron; otherCron]
    = matchedCronJobs web [webCron; otherCron].
Proof.
  assert (H1 : NoDup [webCron; otherCron]).
  { constructor; [|constructor; [|constructor]].
    - intros Hin. apply list_elem_of_In in Hin. destruct Hin as [H|[]].
      discriminate H.
    - intros Hin. apply list_elem_of_In in Hin. destruct Hin. }
  assert (H2 : Permutation rulesReordered (matchRules web)).
  { unfold rulesReordered, matchRules.
    eapply perm_trans; [apply perm_swap|]. apply perm_skip. apply perm_swap. }
  destruct (match_exclusive web [webCron; otherCron]) as (_ & Hnd & Hp).
  split; [exact H1|]. split; [exact H2|].
  split; [exact (Hnd H1) | exact (Hp rulesReordered H2)].
Defined.

Lemma conflict_abort_witness :
  fst (Get updateConflicts webKey state0) = inr web
  ∧ fst (findCronJobsForDeployment updateConflicts web (started web state0))
    = inr ([] ++ webCron :: [])
  ∧ reconcileCronJobs updateConflicts web (imageByName web) []
      (started web state0) = (None, started web state0)
  ∧ snd (syncImages web (imageByName web) webCron) = true
  ∧ failUpdate updateConflicts (started web state0) webCronSynced
    = Some conflict
  ∧ ∃ st',
      Reconcile updateConflicts webKey state0 = (Some conflict, st')
      ∧ cluster st' = cluster (started web state0)
      ∧ trace st'
        = trace (started web state0)
          ++ updateFailedEffects web webCronSynced conflict
      ∧ counterIncs syncErrors "default" "web" (trace st')
        = S (counterIncs syncErrors "default" "web" (trace state0))
      ∧ warnings (trace st')
        = warnings (trace state0)
          ++ [updateFailedEvent web webCronSynced conflict]
      ∧ deleteCalls (trace st') = deleteCalls (trace (started web state0)).
Proof.
  assert (H1 : fst (Get updateConflicts webKey state0) = inr web)
    by reflexivity.
  assert (H2 : fst (findCronJobsForDeployment updateConflicts web
                      (started web state0)) = inr ([] ++ webCron :: []))
    by (vm_compute; reflexivity).
  assert (H3 : reconcileCronJobs updateConflicts web (imageByName web) []
                 (started web state0) = (None, started web state0))
    by reflexivity.
  assert (H4 : snd (syncImages web (imageByName web) webCron) = true)
    by (vm_compute; reflexivity).
  assert (H5 : failUpdate updateConflicts (started web state0) webCronSynced
               = Some conflict) by reflexivity.
  repeat (split; [assumption|]).
  exact (conflict_abort updateConflicts webKey web state0 (started web state0)
           [] [] webCron conflict H1 H2 H3 H4 H5).
Defined.

Lemma only_images_written_witness :
  Reconcile noFaults webKey state0
  = (None, snd (Reconcile noFaults webKey state0))
  ∧ cjContainers webCron !! 1 = Some sidecar
  ∧ (∃ img, cjContainers webCronSynced !! 1 = Some (setImage sidecar img))
  ∧ (∀ cj' res,
       In (CallUpdate cj' res)
          (effectsSince state0 (snd (Reconcile noFaults webKey state0))) →
       ∃ cj, In cj (cronjobs (cluster state0))
             ∧ eraseImages cj' = eraseImages cj)
  ∧ (∀ cj', In cj' (cronjobs (cluster (snd (Reconcile noFaults webKey state0)))) →
       ∃ cj, In cj (cronjobs (cluster state0))
             ∧ eraseImages cj' = eraseImages cj).
Proof.
  assert (H1 : Reconcile noFaults webKey state0
               = (None, snd (Reconcile noFaults webKey state0)))
    by (vm_compute; reflexivity).
  assert (H2 : cjContainers webCron !! 1 = Some sidecar) by reflexivity.
  split; [exact H1|]. split; [exact H2|].
  destruct (@only_images_written string string) as [Hsync Hpass].
  destruct (Hsync web (imageByName web) webCron)
    as (_ & _ & _ & _ & _ & _ & _ & Hcs).
  destruct (Hpass noFaults webKey state0 _ None H1) as (Hu & Hs & _).
  split; [exact (Hcs 1 sidecar H2)|]. split; [exact Hu | exact Hs].
Defined.

Lemma counted_per_cleaned_job_witness :
  deleteJobsForCronJob secondPodsForbidden webCronSynced state1
  = (Some forbidden,
     snd (deleteJobsForCronJob secondPodsForbidden webCronSynced state1))
  ∧ deletedJobs
      (effectsSince state1
         (snd (deleteJobsForCronJob secondPodsForbidden webCronSynced state1)))
    = [ownedJob; ownedJob2]
  ∧ clearedPods
      (effectsSince state1
         (snd (deleteJobsForCronJob secondPodsForbidden webCronSynced state1)))
    = [("default", "web-cron-28")]
  ∧ ∃ cleaned,
      clearedPods
        (effectsSince state1
           (snd (deleteJobsForCronJob secondPodsForbidden webCronSynced state1)))
      = map (fun job => (cjNamespace webCronSynced, jName job)) cleaned
      ∧ counterIncs jobsDeleted (cjNamespace webCronSynced) (cjName webCronSynced)
          (effectsSince state1
             (snd (deleteJobsForCronJob secondPodsForbidden webCronSynced state1)))
        = length cleaned
      ∧ eventsOf
          (effectsSince state1
             (snd (deleteJobsForCronJob secondPodsForbidden webCronSynced state1)))
        = map (fun job => jobDeletedEvent webCronSynced (jName job)) cleaned
      ∧ Forall (fun ev => evType ev = EventTypeNormal)
          (eventsOf
             (effectsSince state1
                (snd (deleteJobsForCronJob secondPodsForbidden webCronSynced
                        state1))))
      ∧ ((deletedJobs
            (effectsSince state1
               (snd (deleteJobsForCronJob secondPodsForbidden webCronSynced
                       state1))) = cleaned
          ∧ podCalls
              (effectsSince state1
                 (snd (deleteJobsForCronJob secondPodsForbidden webCronSynced
                         state1)))
            = clearedPods
                (effectsSince state1
                   (snd (deleteJobsForCronJob secondPodsForbidden webCronSynced
                           state1))))
         ∨ ∃ job,
             deletedJobs
               (effectsSince state1
                  (snd (deleteJobsForCronJob secondPodsForbidden webCronSynced
                          state1)))
             = cleaned ++ [job]
             ∧ podCalls
                 (effectsSince state1
                    (snd (deleteJobsForCronJob secondPodsForbidden webCronSynced
                            state1)))
               = clearedPods
                   (effectsSince state1
                      (snd (deleteJobsForCronJob secondPodsForbidden
                              webCronSynced state1)))
                 ++ [(cjNamespace webCronSynced, jName job)]
             ∧ In (CallDeleteAllOfPods (cjNamespace webCronSynced) (jName job)
                     (Some forbidden))
                  (effectsSince state1
                     (snd (deleteJobsForCronJob secondPodsForbidden
                             webCronSynced state1)))).
Proof.
  assert (H1 : deleteJobsForCronJob secondPodsForbidden webCronSynced state1
               = (Some forbidden,
                  snd (deleteJobsForCronJob secondPodsForbidden webCronSynced
                         state1)))
    by (vm_compute; reflexivity).
  split; [exact H1|].
  split; [vm_compute; reflexivity|]. split; [vm_compute; reflexivity|].
  exact (counted_per_cleaned_job secondPodsForbidden webCronSynced state1 _ _ H1).
Defined.

(** C8 as stated fails when the Pods of a deleted Job cannot be deleted:
    the Job is gone, [deleteJobsForCronJob] returns before the counter and
    the event. *)
Lemma deleted_job_not_counted :
  deletedJobs
    (effectsSince state0
       (snd (deleteJobsForCronJob podsForbidden webCronSynced state0)))
  = [ownedJob]
  ∧ jobs (cluster (snd (deleteJobsForCronJob podsForbidden webCronSynced state0)))
    = [staleJob]
  ∧ counterIncs jobsDeleted "default" "web-cron"
      (effectsSince state0
         (snd (deleteJobsForCronJob podsForbidden webCronSynced state0))) = 0
  ∧ eventsOf
      (effectsSince state0
         (snd (deleteJobsForCronJob podsForbidden webCronSynced state0))) = []
  ∧ ¬ counted_per_deleted_job podsForbidden webCronSynced state0.
Proof.
  repeat split; try (vm_compute; reflexivity).
  unfold counted_per_deleted_job. intros [H _]. vm_compute in H. discriminate H.
Qed.

Lemma invalidate_after_persist_witness :
  Reconcile noFaults webKey state0
  = (None, snd (Reconcile noFaults webKey state0))
  ∧ snd (syncImages web (imageByName web) webCronSynced) = false
  ∧ (∃ t, trace (snd (Reconcile noFaults webKey state0)) = trace state0 ++ t
          ∧ ∀ t1 job res t2, t = t1 ++ CallDelete job res :: t2 →
              ∃ cj, In (CallUpdate cj None) t1
                    ∧ isOwnedByCronJob job cj = true)
  ∧ reconcileCronJob updateConflicts web (imageByName web) webCronSynced state0
    = (None, state0).
Proof.
  assert (H1 : Reconcile noFaults webKey state0
               = (None, snd (Reconcile noFaults webKey state0)))
    by (vm_compute; reflexivity).
  assert (H2 : snd (syncImages web (imageByName web) webCronSynced) = false)
    by (vm_compute; reflexivity).
  destruct (@invalidate_after_persist string string) as [Hpass Hbody].
  split; [exact H1|]. split; [exact H2|]. split.
  - exact (Hpass noFaults webKey state0 _ None H1).
  - exact (Hbody updateConflicts web webCronSynced state0 H2).
Defined.

(** Forget which reference is the controlling one and what it blocks. *)
Definition plainReference (o : OwnerReference) : OwnerReference :=
  mkOwnerReference "" (orKind o) (orName o) (orUID o) None None.

Lemma ownership_test_fields_witness :
  In ownedJob (jobs (cluster state0))
  ∧ jNamespace ownedJob = cjNamespace webCronSynced
  ∧ isOwnedByCronJob ownedJob webCronSynced = true
  ∧ isOwnedByCronJob (mapOwners plainReference ownedJob) webCronSynced
    = isOwnedByCronJob ownedJob webCronSynced
  ∧ ∃ st', deleteJobsForCronJob noFaults webCronSynced state0 = (None, st')
           ∧ In (CallDelete ownedJob None) (effectsSince state0 st')
           ∧ ¬ In ownedJob (jobs (cluster st')).
Proof.
  assert (H1 : In ownedJob (jobs (cluster state0))) by (right; now left).
  assert (H2 : jNamespace ownedJob = cjNamespace webCronSynced) by reflexivity.
  assert (H3 : isOwnedByCronJob ownedJob webCronSynced = true) by reflexivity.
  destruct (@ownership_test_fields string string) as (_ & Hfields & Hdel).
  split; [exact H1|]. split; [exact H2|]. split; [exact H3|]. split.
  - apply (Hfields plainReference ownedJob webCronSynced).
    intros o. repeat split.
  - exact (Hdel noFaults webCronSynced state0 ownedJob
             (fun _ _ => eq_refl) (fun _ _ => eq_refl) (fun _ _ _ => eq_refl)
             H1 H2 H3).
Defined.

(** * The further properties at the concrete cluster *)

Lemma sync_flag_exact_witness :
  snd (syncImages web (imageByName web) webCronSynced) = false
  ∧ fst (syncImages web (imageByName web) webCronSynced) = webCronSynced.
Proof.
  assert (H1 : snd (syncImages web (imageByName web) webCronSynced) = false)
    by (vm_compute; reflexivity).
  split; [exact H1|].
  exact (proj1 (proj1 (sync_flag_exact web (imageByName web) webCronSynced)) H1).
Defined.

Lemma imageByName_last_wins_witness :
  dContainers twice
  = [mkContainer "app" "app:1" "first"; mkContainer "db" "postgres:16" "store"]
    ++ mkContainer "app" "app:2" "second" :: []
  ∧ imageByName twice !! "app" = Some "app:2".
Proof.
  assert (H1 : dContainers twice
               = [mkContainer "app" "app:1" "first";
                  mkContainer "db" "postgres:16" "store"]
                 ++ mkContainer "app" "app:2" "second" :: []) by reflexivity.
  split; [exact H1|].
  exact (proj1 (imageByName_last_wins twice) _ _ _ H1 (fun q (H : In q []) => match H with end)).
Defined.

Lemma hasSharedImage_spec_witness :
  (cjContainers hollowCron = [] ∨ dContainers web = [])
  ∧ hasSharedImage hollowCron web = false
  ∧ hasSharedImage otherCron web = true.
Proof.
  assert (H1 : cjContainers hollowCron = [] ∨ dContainers web = [])
    by (left; reflexivity).
  split; [exact H1|]. split.
  - exact (proj2 (hasSharedImage_spec hollowCron web) H1).
  - apply (proj2 (proj1 (hasSharedImage_spec otherCron web))).
    exists nginx122, nginx122. split; [now left|]. split; [now left | reflexivity].
Defined.

Lemma synced_cronjob_shares_image_witness :
  dContainers web ≠ []
  ∧ cjContainers webCron ≠ []
  ∧ hasSharedImage webCronSynced web = true
  ∧ matches web webCronSynced = true.
Proof.
  assert (H1 : dContainers web ≠ []) by discriminate.
  assert (H2 : cjContainers webCron ≠ []) by discriminate.
  split; [exact H1|]. split; [exact H2|].
  exact (proj2 (synced_cronjob_shares_image web webCron H1) H2).
Defined.

Lemma findCronJobs_spec_witness :
  fst (findCronJobsForDeployment noFaults web state0) = inr [webCron]
  ∧ [webCron] `sublist_of` cronjobs (cluster state0)
  ∧ (In webCron [webCron]
     ↔ In webCron (cronjobs (cluster state0))
       ∧ (dNamespace web = "" ∨ cjNamespace webCron = dNamespace web)
       ∧ (cjLabels webCron !! "managed-by-deployment" = Some (dName web)
          ∨ cjAnnotations webCron
              !! "controller.example.com/managed-by-deployment"
            = Some (dNamespace web +:+ "/" +:+ dName web)
          ∨ ∃ c p, In c (cjContainers webCron) ∧ In p (dContainers web)
                   ∧ cImage c = cImage p)).
Proof.
  assert (H1 : fst (findCronJobsForDeployment noFaults web state0)
               = inr [webCron]) by (vm_compute; reflexivity).
  split; [exact H1|].
  destruct (findCronJobs_spec noFaults web state0) as (_ & _ & Hok).
  destruct (Hok [webCron] H1) as [Hsub Hin].
  split; [exact Hsub | exact (Hin webCron)].
Defined.

Lemma reconcile_deleted_deployment_witness :
  (fst (Get getNotFound webKey state0) = inl notFound
   ∧ errReason notFound = ReasonNotFound
   ∧ Reconcile getNotFound webKey state0 = (None, state0))
  ∧ (fst (Get getForbidden webKey state0) = inl forbidden
     ∧ errReason forbidden ≠ ReasonNotFound
     ∧ Reconcile getForbidden webKey state0 = (Some forbidden, state0))
  ∧ (failGet noFaults state0 goneKey = None
     ∧ (∀ d, In d (deployments (cluster state0)) →
             dNamespace d ≠ nnNamespace goneKey ∨ dName d ≠ nnName goneKey)
     ∧ Reconcile noFaults goneKey state0 = (None, state0)).
Proof.
  assert (A1 : fst (Get getNotFound webKey state0) = inl notFound)
    by reflexivity.
  assert (A2 : errReason notFound = ReasonNotFound) by reflexivity.
  assert (B1 : fst (Get getForbidden webKey state0) = inl forbidden)
    by reflexivity.
  assert (B2 : errReason forbidden ≠ ReasonNotFound) by discriminate.
  assert (C1 : failGet noFaults state0 goneKey = None) by reflexivity.
  assert (C2 : ∀ d, In d (deployments (cluster state0)) →
                 dNamespace d ≠ nnNamespace goneKey ∨ dName d ≠ nnName goneKey).
  { intros d [<-|[]]. right. discriminate. }
  split; [|split].
  - split; [exact A1|]. split; [exact A2|].
    exact (proj1 (reconcile_deleted_deployment getNotFound webKey state0)
             notFound A1 A2).
  - split; [exact B1|]. split; [exact B2|].
    exact (proj1 (proj2 (reconcile_deleted_deployment getForbidden webKey state0))
             forbidden B1 B2).
  - split; [exact C1|]. split; [exact C2|].
    exact (proj2 (proj2 (reconcile_deleted_deployment noFaults goneKey state0))
             C1 C2).
Defined.


Lemma updated_counter_counts_updates_witness :
  Reconcile noFaults webKey state0
  = (None, snd (Reconcile noFaults webKey state0))
  ∧ counterIncs cronjobsUpdated "default" "web-cron"
      (effectsSince state0 (snd (Reconcile noFaults webKey state0)))
    = length (List.filter (hasKey "default" "web-cron")
                (updatedIn
                   (effectsSince state0
                      (snd (Reconcile noFaults webKey state0))))).
Proof.
  assert (H1 : Reconcile noFaults webKey state0
               = (None, snd (Reconcile noFaults webKey state0)))
    by (vm_compute; reflexivity).
  split; [exact H1|].
  exact (proj2 (updated_counter_counts_updates noFaults webKey state0 _ _ H1)
           "default" "web-cron").
Defined.

Lemma jobs_deleted_in_order_witness :
  deleteJobsForCronJob noFaults webCronSynced state1
  = (None, snd (deleteJobsForCronJob noFaults webCronSynced state1))
  ∧ deleteCalls
      (effectsSince state1
         (snd (deleteJobsForCronJob noFaults webCronSynced state1)))
    = List.filter (ownedBy webCronSynced) (listedJobs webCronSynced state1)
  ∧ List.filter (ownedBy webCronSynced) (listedJobs webCronSynced state1)
    = [ownedJob; ownedJob2]
  ∧ List.filter (ownedBy anywhereCron) (listedJobs anywhereCron state1)
    = [ownedJob; ownedJob2].
Proof.
  assert (H1 : deleteJobsForCronJob noFaults webCronSynced state1
               = (None, snd (deleteJobsForCronJob noFaults webCronSynced state1)))
    by (vm_compute; reflexivity).
  split; [exact H1|]. split.
  - exact (proj1 (proj2 (jobs_deleted_in_order noFaults webCronSynced state1 _ _ H1))
             eq_refl).
  - split; vm_compute; reflexivity.
Defined.

Lemma pods_deleted_with_their_job_witness :
  deleteJobsForCronJob podsForbidden webCronSynced state0
  = (Some forbidden,
     snd (deleteJobsForCronJob podsForbidden webCronSynced state0))
  ∧ podCalls
      (effectsSince state0
         (snd (deleteJobsForCronJob podsForbidden webCronSynced state0)))
    = map (fun job => (cjNamespace webCronSynced, jName job))
          (deletedJobs
             (effectsSince state0
                (snd (deleteJobsForCronJob podsForbidden webCronSynced state0)))).
Proof.
  assert (H1 : deleteJobsForCronJob podsForbidden webCronSynced state0
               = (Some forbidden,
                  snd (deleteJobsForCronJob podsForbidden webCronSynced state0)))
    by (vm_compute; reflexivity).
  split; [exact H1|].
  exact (pods_deleted_with_their_job podsForbidden webCronSynced state0 _ _ H1).
Defined.

Lemma delete_jobs_store_frame_witness :
  deleteJobsForCronJob noFaults webCronSynced state0
  = (None, snd (deleteJobsForCronJob noFaults webCronSynced state0))
  ∧ cronjobs (cluster (snd (deleteJobsForCronJob noFaults webCronSynced state0)))
    = cronjobs (cluster state0)
  ∧ pods (cluster (snd (deleteJobsForCronJob noFaults webCronSynced state0)))
    = []
  ∧ (∀ p, In p (pods (cluster state0)) →
       ¬ In p (pods (cluster (snd (deleteJobsForCronJob noFaults
                                     webCronSynced state0)))) →
       (cjNamespace webCronSynced = ""
        ∨ pNamespace p = cjNamespace webCronSynced)
       ∧ ∃ g, In g (deletedJobs
                      (effectsSince state0
                         (snd (deleteJobsForCronJob noFaults webCronSynced
                                 state0))))
              ∧ isOwnedByCronJob g webCronSynced = true
              ∧ pLabels p !! "job-name" = Some (jName g)).
Proof.
  assert (H1 : deleteJobsForCronJob noFaults webCronSynced state0
               = (None, snd (deleteJobsForCronJob noFaults webCronSynced state0)))
    by (vm_compute; reflexivity).
  split; [exact H1|].
  destruct (delete_jobs_store_frame noFaults webCronSynced state0 _ _ H1)
    as (_ & Hc & _ & _ & _ & Hp).
  split; [exact Hc|]. split; [vm_compute; reflexivity | exact Hp].
Defined.

Lemma failed_invalidation_keeps_update_witness :
  reconcileCronJob podsForbidden web (imageByName web) webCron state0
  = (Some forbidden,
     snd (reconcileCronJob podsForbidden web (imageByName web) webCron state0))
  ∧ failUpdate podsForbidden state0 webCronSynced = None
  ∧ cronjobs (cluster (snd (reconcileCronJob podsForbidden web (imageByName web)
                              webCron state0)))
    = replaceCronJob webCronSynced (cronjobs (cluster state0))
  ∧ warnings
      (effectsSince state0
         (snd (reconcileCronJob podsForbidden web (imageByName web) webCron
                 state0)))
    = [deleteJobsFailedEvent webCronSynced forbidden]
  ∧ reconcileCronJob updateConflicts web (imageByName web) webCronSynced state1
    = (None, state1).
Proof.
  assert (H1 : reconcileCronJob podsForbidden web (imageByName web) webCron state0
               = (Some forbidden,
                  snd (reconcileCronJob podsForbidden web (imageByName web)
                         webCron state0)))
    by (vm_compute; reflexivity).
  assert (H2 : failUpdate podsForbidden state0 webCronSynced = None)
    by reflexivity.
  split; [exact H1|]. split; [exact H2|].
  destruct (failed_invalidation_keeps_update podsForbidden web (imageByName web)
              webCron state0 forbidden _ H1 H2)
    as (Hc & _ & _ & _ & Hw & Hlater).
  split; [exact Hc|]. split; [exact Hw|].
  exact (Hlater updateConflicts web state1 eq_refl).
Defined.

Lemma full_sync_effects_witness :
  snd (syncImages web (imageByName web) webCron) = true
  ∧ ∃ st',
      reconcileCronJob noFaults web (imageByName web) webCron state0 = (None, st')
      ∧ effectsSince state0 st'
        = updateEffects web webCronSynced
          ++ flat_map (deletionEffects webCronSynced)
               (List.filter (ownedBy webCronSynced)
                  (listedJobs webCronSynced state0))
          ++ [RecordEvent (jobsRecreatedEvent webCronSynced)].
Proof.
  assert (H1 : snd (syncImages web (imageByName web) webCron) = true)
    by (vm_compute; reflexivity).
  split; [exact H1|].
  destruct (full_sync_effects noFaults web (imageByName web) webCron state0
              (fun _ _ => eq_refl) (fun _ _ => eq_refl) (fun _ _ => eq_refl)
              (fun _ _ _ => eq_refl) H1)
    as (st' & Hrun & Heff & _).
  exists st'. split; [exact Hrun | exact Heff].
Defined.

Lemma reconcile_only_removes_witness :
  Reconcile noFaults webKey state0
  = (None, snd (Reconcile noFaults webKey state0))
  ∧ (∀ j, In j (jobs (cluster (snd (Reconcile noFaults webKey state0)))) →
          In j (jobs (cluster state0)))
  ∧ (∀ p, In p (pods (cluster (snd (Reconcile noFaults webKey state0)))) →
          In p (pods (cluster state0))).
Proof.
  assert (H1 : Reconcile noFaults webKey state0
               = (None, snd (Reconcile noFaults webKey state0)))
    by (vm_compute; reflexivity).
  split; [exact H1|].
  destruct (reconcile_only_removes noFaults webKey state0 _ _ H1)
    as (_ & Hj & Hp & _).
  split; [exact Hj | exact Hp].
Defined.

Lemma updates_only_changed_matches_witness :
  Reconcile noFaults webKey state0
  = (None, snd (Reconcile noFaults webKey state0))
  ∧ In (CallUpdate webCronSynced None)
       (effectsSince state0 (snd (Reconcile noFaults webKey state0)))
  ∧ ∃ d cj0,
      fst (Get noFaults webKey state0) = inr d
      ∧ In cj0 (cronjobs (cluster state0))
      ∧ cjNamespace cj0 = dNamespace d
      ∧ matches d cj0 = true
      ∧ webCronSynced = fst (syncImages d (imageByName d) cj0)
      ∧ webCronSynced ≠ cj0.
Proof.
  assert (H1 : Reconcile noFaults webKey state0
               = (None, snd (Reconcile noFaults webKey state0)))
    by (vm_compute; reflexivity).
  assert (H2 : In (CallUpdate webCronSynced None)
                  (effectsSince state0 (snd (Reconcile noFaults webKey state0)))).
  { right. left. vm_compute. reflexivity. }
  split; [exact H1|]. split; [exact H2|].
  exact (updates_only_changed_matches noFaults webKey state0 _ _ H1
           webCronSynced None H2).
Defined.
